(** * Committee node of oasis-core: the per-block handler, the event loop,
      shutdown, and the simple scheduler's queueing facade.

    Shallow embedding of the committee node (package [committee]:
    [handleNewBlockLocked], [handleEpochTransitionLocked],
    [handleSuspendLocked], [handleNewEventLocked], [handleRuntimeHostEvent],
    [Stop], [worker]) and of the simple scheduler (package [simple]:
    [QueueTx] and the calls it routes to the pool).

    The node is one Go struct mutated in place by a single worker goroutine;
    here it is the record [Node], threaded through a small state / trace
    monad whose [None] result stands for Go's early [return].  Calls to the
    collaborators (consensus backend, registry, beacon, committee group,
    hooks, transaction pool, metrics, logger, channels) are either answers
    read from an [Env] record or effects appended to a trace. *)

From Stdlib Require Import ZArith NArith List Bool String Lia.
Import ListNotations.
Open Scope Z_scope.

(** ** Errors

    Go errors are values compared by identity ([switch err { case X: }]) or
    through the wrap chain ([errors.Is]).  [ErrWrap] is what
    [fmt.Errorf("...: %w", err)] builds. *)

Inductive Error : Type :=
| ErrNoSuchRuntime                       (* registry.ErrNoSuchRuntime *)
| ErrCallAlreadyExists                   (* txpool.ErrCallAlreadyExists *)
| ErrFull                                (* the pool's capacity / weight-limit condition *)
| ErrMsg (msg : string)                  (* errors.New(msg) *)
| ErrWrap (msg : string) (inner : Error).

Fixpoint Error_eqb (a b : Error) : bool :=
  match a, b with
  | ErrNoSuchRuntime, ErrNoSuchRuntime => true
  | ErrCallAlreadyExists, ErrCallAlreadyExists => true
  | ErrFull, ErrFull => true
  | ErrMsg s, ErrMsg t => String.eqb s t
  | ErrWrap s x, ErrWrap t y => String.eqb s t && Error_eqb x y
  | _, _ => false
  end.

(** [errors.Is(err, target)]: [err] or something it wraps is [target]. *)
Fixpoint errors_Is (err target : Error) : bool :=
  Error_eqb err target ||
  match err with
  | ErrWrap _ inner => errors_Is inner target
  | _ => false
  end.

Definition result (A : Type) : Type := (A + Error)%type.
Definition Ok {A} (a : A) : result A := inl a.
Definition Err {A} (e : Error) : result A := inr e.

(** ** Data model *)

Module block.
(** [block.HeaderType] is a [uint8]; the four named values are the ones
    the handler dispatches on, [Unrecognized] is any other byte. *)
Inductive HeaderType : Type :=
| Normal
| RoundFailed
| EpochTransition
| Suspended
| Unrecognized (code : N).

Definition HeaderType_eqb (a b : HeaderType) : bool :=
  match a, b with
  | Normal, Normal => true
  | RoundFailed, RoundFailed => true
  | EpochTransition, EpochTransition => true
  | Suspended, Suspended => true
  | Unrecognized x, Unrecognized y => N.eqb x y
  | _, _ => false
  end.

Record Header : Type := mkHeader {
  Round : N;
  HeaderType_ : HeaderType
}.

Record Block : Type := mkBlock {
  Header_ : Header
}.
End block.

Record LightBlock : Type := mkLightBlock {
  LB_Height : Z;
  LB_Meta : N
}.

(** [registry.Runtime]: the descriptor; [KeyManager] is a nullable id. *)
Record Runtime : Type := mkRuntime {
  RT_ID : N;
  RT_KeyManager : option N
}.

Definition EpochTime : Type := N.

Record EpochSnapshot : Type := mkEpochSnapshot {
  epochNumber : EpochTime
}.

Record BlockInfo : Type := mkBlockInfo {
  BI_RuntimeBlock : option block.Block;
  BI_ConsensusBlock : option LightBlock;
  BI_Epoch : EpochTime;
  BI_ActiveDescriptor : option Runtime
}.

Definition HookId : Type := nat.
Definition RoothashEvent : Type := N.
Definition HostEvent : Type := N.

(** ** Effects on the collaborators, in program order *)

Inductive Counter : Type :=
| processedBlockCount
| processedEventCount
| failedRoundCount
| epochTransitionCount.

Inductive Subscription : Type :=
| consensusBlocksSub
| blocksSub
| eventsSub
| hrtSub.

Inductive Effect : Type :=
| MetricInc (c : Counter)
| MetricSetEpochNumber (e : EpochTime)
| Log (msg : string)
| GroupEpochTransition (height : Z)
| GroupSuspend
| GroupRoundTransition
| HookEpochTransition (h : HookId) (epoch : EpochSnapshot)
| HookNewBlockEarly (h : HookId) (blk : block.Block)
| HookNewBlock (h : HookId) (blk : block.Block)
| HookNewEvent (h : HookId) (ev : RoothashEvent)
| HookRuntimeHostEvent (h : HookId) (ev : HostEvent)
| TxPoolProcessBlock (bi : BlockInfo)
| TxPoolStop
| CloseStopCh
| CloseQuitCh
| CloseInitCh
| CancelCtx
| SubClose (s : Subscription)
| HrtStart
| HrtStop
| HrtNotifierStart
| HrtNotifierStop.

Definition Trace : Type := list Effect.

(** ** The node *)

Record Node : Type := mkNode {
  hooks : list HookId;
  stopOnce : bool;                       (* sync.Once: already done? *)
  KeyManagerClient : bool;               (* is the client non-nil? *)
  CurrentBlock : option block.Block;
  CurrentBlockHeight : Z;
  CurrentConsensusBlock : option LightBlock;
  CurrentDescriptor : option Runtime;
  CurrentEpoch : EpochTime;
  Height : Z
}.

Definition set_CurrentBlock (b : option block.Block) (n : Node) : Node :=
  mkNode n.(hooks) n.(stopOnce) n.(KeyManagerClient) b n.(CurrentBlockHeight)
         n.(CurrentConsensusBlock) n.(CurrentDescriptor) n.(CurrentEpoch)
         n.(Height).
Definition set_CurrentBlockHeight (h : Z) (n : Node) : Node :=
  mkNode n.(hooks) n.(stopOnce) n.(KeyManagerClient) n.(CurrentBlock) h
         n.(CurrentConsensusBlock) n.(CurrentDescriptor) n.(CurrentEpoch)
         n.(Height).
Definition set_CurrentConsensusBlock (c : option LightBlock) (n : Node) : Node :=
  mkNode n.(hooks) n.(stopOnce) n.(KeyManagerClient) n.(CurrentBlock)
         n.(CurrentBlockHeight) c n.(CurrentDescriptor) n.(CurrentEpoch)
         n.(Height).
Definition set_CurrentDescriptor (d : option Runtime) (n : Node) : Node :=
  mkNode n.(hooks) n.(stopOnce) n.(KeyManagerClient) n.(CurrentBlock)
         n.(CurrentBlockHeight) n.(CurrentConsensusBlock) d n.(CurrentEpoch)
         n.(Height).
Definition set_CurrentEpoch (e : EpochTime) (n : Node) : Node :=
  mkNode n.(hooks) n.(stopOnce) n.(KeyManagerClient) n.(CurrentBlock)
         n.(CurrentBlockHeight) n.(CurrentConsensusBlock)
         n.(CurrentDescriptor) e n.(Height).
Definition set_Height (h : Z) (n : Node) : Node :=
  mkNode n.(hooks) n.(stopOnce) n.(KeyManagerClient) n.(CurrentBlock)
         n.(CurrentBlockHeight) n.(CurrentConsensusBlock)
         n.(CurrentDescriptor) n.(CurrentEpoch) h.
Definition set_KeyManagerClient (b : bool) (n : Node) : Node :=
  mkNode n.(hooks) n.(stopOnce) b n.(CurrentBlock)
         n.(CurrentBlockHeight) n.(CurrentConsensusBlock)
         n.(CurrentDescriptor) n.(CurrentEpoch) n.(Height).
Definition set_hooks (hs : list HookId) (n : Node) : Node :=
  mkNode hs n.(stopOnce) n.(KeyManagerClient) n.(CurrentBlock)
         n.(CurrentBlockHeight) n.(CurrentConsensusBlock)
         n.(CurrentDescriptor) n.(CurrentEpoch) n.(Height).

(** The node as [NewNode] leaves it: no hooks yet, nothing current. *)
Definition NewNode : Node :=
  mkNode [] false false None 0 None None 0%N 0.

(** [AddHooks]: append, "there is no going back". *)
Definition AddHooks (h : HookId) (n : Node) : Node :=
  set_hooks (n.(hooks) ++ [h]) n.

(** The five fields guarded by [CrossNode] that the per-block handler
    writes. *)
Definition protected_eq (a b : Node) : Prop :=
  a.(CurrentBlock) = b.(CurrentBlock) /\
  a.(CurrentBlockHeight) = b.(CurrentBlockHeight) /\
  a.(CurrentConsensusBlock) = b.(CurrentConsensusBlock) /\
  a.(CurrentDescriptor) = b.(CurrentDescriptor) /\
  a.(CurrentEpoch) = b.(CurrentEpoch).

(** ** What the collaborators answer during one handler call

    A successful lookup carries the value itself: the Go convention that a
    nil error comes with a non-nil pointer (the worker dereferences
    [rt.KeyManager] with no nil check).  [GetEpoch] answers with the pair
    Go returns, an epoch and an error: the handler assigns the epoch to
    [CurrentEpoch] before it looks at the error. *)

Record Env : Type := mkEnv {
  GetLightBlock : Z -> result LightBlock;      (* Consensus.GetLightBlock *)
  GetRuntime : Z -> result Runtime;            (* Registry().GetRuntime *)
  GetEpoch : Z -> EpochTime * option Error;    (* Beacon().GetEpoch *)
  Group_EpochTransition : Z -> option Error;   (* Group.EpochTransition *)
  GetEpochSnapshot : EpochSnapshot;            (* Group.GetEpochSnapshot *)
  TxPool_ProcessBlock : BlockInfo -> option Error
}.

(** ** The state / trace monad with early return *)

Definition M (A : Type) : Type := Node -> (option A * Node * Trace).

Definition ret {A} (a : A) : M A := fun n => (Some a, n, []).

Definition bind {A B} (m : M A) (f : A -> M B) : M B :=
  fun n =>
    match m n with
    | (Some a, n1, t1) =>
        match f a n1 with
        | (r, n2, t2) => (r, n2, t1 ++ t2)
        end
    | (None, n1, t1) => (None, n1, t1)
    end.

(** Go's [return] in the middle of a function body. *)
Definition return_ {A} : M A := fun n => (None, n, []).

Definition emit (e : Effect) : M unit := fun n => (Some tt, n, [e]).
Definition get : M Node := fun n => (Some n, n, []).
Definition modify (f : Node -> Node) : M unit := fun n => (Some tt, f n, []).

(** Calling a function: its early return ends the callee only. *)
Definition call (m : M unit) : M unit :=
  fun n => match m n with (_, n1, t1) => (Some tt, n1, t1) end.

Notation "x <- m ;; k" := (bind m (fun x => k))
  (at level 61, m at next level, right associativity).
Notation "m ;;; k" := (bind m (fun _ => k))
  (at level 61, right associativity).

(** [for _, hooks := range n.hooks { f(hooks) }] *)
Fixpoint for_each {A} (xs : list A) (f : A -> M unit) : M unit :=
  match xs with
  | [] => ret tt
  | x :: xs' => f x ;;; for_each xs' f
  end.

Definition run (m : M unit) (n : Node) : Node * Trace :=
  match m n with (_, n1, t1) => (n1, t1) end.

(** ** The handlers of node.go *)

Section Handlers.
Variable env : Env.

Definition handleEpochTransitionLocked (height : Z) : M unit :=
  emit (Log "epoch transition has occurred") ;;;
  emit (MetricInc epochTransitionCount) ;;;
  emit (GroupEpochTransition height) ;;;
  match env.(Group_EpochTransition) height with
  | Some _ => emit (Log "unable to handle epoch transition")
  | None => ret tt
  end ;;;
  let epoch := env.(GetEpochSnapshot) in
  emit (MetricSetEpochNumber epoch.(epochNumber)) ;;;
  n <- get ;;
  for_each n.(hooks) (fun h => emit (HookEpochTransition h epoch)).

Definition handleSuspendLocked (height : Z) : M unit :=
  emit (Log "runtime has been suspended") ;;;
  emit GroupSuspend ;;;
  let epoch := env.(GetEpochSnapshot) in
  n <- get ;;
  for_each n.(hooks) (fun h => emit (HookEpochTransition h epoch)).

(** The [switch header.HeaderType] statement of [handleNewBlockLocked]:
    perform actions based on block type. *)
Definition dispatchHeaderType (blk : block.Block)
  (firstBlockReceived : bool) (height : Z) : M unit :=
  match blk.(block.Header_).(block.HeaderType_) with
  | block.Normal =>
      if firstBlockReceived then
        emit (Log "forcing an epoch transition on first received block") ;;;
        call (handleEpochTransitionLocked height)
      else
        emit GroupRoundTransition
  | block.RoundFailed =>
      if firstBlockReceived then
        emit (Log "forcing an epoch transition on first received block") ;;;
        call (handleEpochTransitionLocked height)
      else
        emit (Log "round has failed") ;;;
        emit GroupRoundTransition ;;;
        emit (MetricInc failedRoundCount)
  | block.EpochTransition =>
      call (handleEpochTransitionLocked height)
  | block.Suspended =>
      call (handleSuspendLocked height)
  | block.Unrecognized _ =>
      emit (Log "invalid block type") ;;; return_
  end.

Definition handleNewBlockLocked (blk : block.Block) (height : Z) : M unit :=
  emit (MetricInc processedBlockCount) ;;;
  let header := blk.(block.Header_) in
  n0 <- get ;;
  let firstBlockReceived :=
    match n0.(CurrentBlock) with None => true | Some _ => false end in
  (* Fetch light consensus block. *)
  consensusBlk <-
    match env.(GetLightBlock) height with
    | inl lb => ret lb
    | inr _ => emit (Log "failed to query light block") ;;; return_
    end ;;
  (* Update the current block. *)
  modify (set_CurrentBlock (Some blk)) ;;;
  modify (set_CurrentBlockHeight height) ;;;
  modify (set_CurrentConsensusBlock (Some consensusBlk)) ;;;
  (* Update active descriptor on epoch transitions. *)
  (if firstBlockReceived
      || block.HeaderType_eqb header.(block.HeaderType_) block.EpochTransition
   then
     match env.(GetRuntime) height with
     | inl ad => modify (set_CurrentDescriptor (Some ad))
     | inr err =>
         if errors_Is err ErrNoSuchRuntime
         then ret tt
         else emit (Log "failed to query runtime descriptor") ;;; return_
     end ;;;
     match env.(GetEpoch) height with
     | (e, err) =>
         modify (set_CurrentEpoch e) ;;;
         match err with
         | Some _ => emit (Log "failed to fetch current epoch") ;;; return_
         | None => ret tt
         end
     end
   else ret tt) ;;;
  n1 <- get ;;
  for_each n1.(hooks) (fun h => emit (HookNewBlockEarly h blk)) ;;;
  dispatchHeaderType blk firstBlockReceived height ;;;
  n2 <- get ;;
  let bi := mkBlockInfo n2.(CurrentBlock) n2.(CurrentConsensusBlock)
                        n2.(CurrentEpoch) n2.(CurrentDescriptor) in
  emit (TxPoolProcessBlock bi) ;;;
  match env.(TxPool_ProcessBlock) bi with
  | Some _ => emit (Log "failed to process block in transaction pool")
  | None => ret tt
  end ;;;
  n3 <- get ;;
  for_each n3.(hooks) (fun h => emit (HookNewBlock h blk)).
End Handlers.

Definition handleNewEventLocked (ev : RoothashEvent) : M unit :=
  emit (MetricInc processedEventCount) ;;;
  n <- get ;;
  for_each n.(hooks) (fun h => emit (HookNewEvent h ev)).

Definition handleRuntimeHostEvent (ev : HostEvent) : M unit :=
  n <- get ;;
  for_each n.(hooks) (fun h => emit (HookRuntimeHostEvent h ev)).

(** ** Shutdown

    [Stop] runs its body under [sync.Once]: the first call closes [stopCh]
    and stops the pool, every later call finds the once already done. *)



(** ** The worker

    The worker is one goroutine; what it meets is fixed by the answers of
    the startup calls ([Startup]) and by the sequence of cases its [select]
    statements take ([Select]).  A schedule that runs out leaves the worker
    suspended in [select]: it has not returned and its deferred calls have
    not run. *)

Inductive SyncWait : Type := SyncStopped | Synced.
Inductive KeyManagerWait : Type := KMCtxDone | KMInitialized.
Inductive HookWait : Type := HookInitialized | HookStopped | HookNever.

Record Startup : Type := mkStartup {
  su_Synced : SyncWait;
  su_ActiveDescriptor : result Runtime;
  su_keymanagerClient_New : option Error;
  su_KeyManagerClient_Initialized : KeyManagerWait;
  su_Consensus_WatchBlocks : option Error;
  su_RootHash_WatchBlocks : option Error;
  su_RootHash_WatchEvents : option Error;
  su_ProvisionHostedRuntime : option Error;
  su_hrt_WatchEvents : option Error;
  su_hrt_Start : option Error;
  su_hrtNotifier_Start : option Error
}.

Inductive Select : Type :=
| SelStop                                           (* <-n.stopCh *)
| SelConsensusBlock (blk : option Z)                (* nil, or its height *)
| SelBlock (blk : block.Block) (height : Z)         (* annotated block *)
           (env : Env) (ready : HookId -> HookWait)
| SelEvent (ev : RoothashEvent)
| SelHostEvent (ev : HostEvent).

Inductive Outcome : Type := Returned | Blocked.

Definition W : Type := Node -> (Outcome * Node * Trace).

Definition wreturn : W := fun n => (Returned, n, []).
Definition wblocked : W := fun n => (Blocked, n, []).

Definition wemit (e : Effect) (k : W) : W :=
  fun n => match k n with (o, n1, t) => (o, n1, e :: t) end.

(** Run a handler to completion, then go on. *)
Definition wdo (m : M unit) (k : W) : W :=
  fun n =>
    match run m n with
    | (n1, t1) => match k n1 with (o, n2, t2) => (o, n2, t1 ++ t2) end
    end.

(** [defer d]: [d] runs when the enclosing function returns. *)
Definition defer (d : Effect) (body : W) : W :=
  fun n =>
    match body n with
    | (Returned, n1, t) => (Returned, n1, t ++ [d])
    | (Blocked, n1, t) => (Blocked, n1, t)
    end.

(** Waiting for the child workers, one [select] per hook. *)
Fixpoint wait_hooks (hs : list HookId) (ready : HookId -> HookWait) (k : W) : W :=
  match hs with
  | [] => k
  | h :: hs' =>
      match ready h with
      | HookInitialized => wait_hooks hs' ready k
      | HookStopped =>
          wemit (Log "termination requested while waiting for child worker initialization")
                wreturn
      | HookNever => wblocked
      end
  end.

Fixpoint worker_loop (sched : list Select) (initialized : bool) : W :=
  match sched with
  | [] => wblocked
  | SelStop :: _ => wemit (Log "termination requested") wreturn
  | SelConsensusBlock None :: _ => wreturn
  | SelConsensusBlock (Some h) :: rest =>
      wdo (modify (set_Height h)) (worker_loop rest initialized)
  | SelBlock blk height env ready :: rest =>
      let received :=
        wdo (handleNewBlockLocked env blk height) (worker_loop rest true) in
      if initialized then received
      else
        wemit (Log "common worker is initialized") (
        wemit CloseInitCh (
        wemit (Log "waiting for child worker initialization") (
        fun n =>
          wait_hooks n.(hooks) ready
            (wemit (Log "all child workers are initialized") received) n)))
  | SelEvent ev :: rest =>
      wdo (handleNewEventLocked ev) (worker_loop rest initialized)
  | SelHostEvent ev :: rest =>
      wdo (handleRuntimeHostEvent ev) (worker_loop rest initialized)
  end.

(** A fallible startup call: on error log and return. *)
Definition try_ (r : option Error) (msg : string) (k : W) : W :=
  match r with
  | Some _ => wemit (Log msg) wreturn
  | None => k
  end.

Definition wait_keymanager (su : Startup) (rt : Runtime) (k : W) : W :=
  match rt.(RT_KeyManager) with
  | None => k
  | Some _ =>
      wemit (Log "runtime indicates a key manager is required, waiting for it to be ready") (
      match su.(su_keymanagerClient_New) with
      | Some _ =>
          wdo (modify (set_KeyManagerClient false)) (
          wemit (Log "failed to create key manager client") wreturn)
      | None =>
          wdo (modify (set_KeyManagerClient true)) (
          match su.(su_KeyManagerClient_Initialized) with
          | KMCtxDone => wemit (Log "failed to wait for key manager") wreturn
          | KMInitialized =>
              wemit (Log "runtime has a key manager available") k
          end)
      end)
  end.

(** [worker], from the key-manager wait on: the descriptor [rt] has been
    stored in [CurrentDescriptor]. *)
Definition worker_with_descriptor (su : Startup) (rt : Runtime)
  (sched : list Select) : W :=
  wait_keymanager su rt (
  try_ su.(su_Consensus_WatchBlocks) "failed to subscribe to consensus blocks" (
  defer (SubClose consensusBlocksSub) (
  try_ su.(su_RootHash_WatchBlocks) "failed to subscribe to roothash blocks" (
  defer (SubClose blocksSub) (
  try_ su.(su_RootHash_WatchEvents) "failed to subscribe to roothash events" (
  defer (SubClose eventsSub) (
  try_ su.(su_ProvisionHostedRuntime) "failed to provision hosted runtime" (
  try_ su.(su_hrt_WatchEvents) "failed to subscribe to hosted runtime events" (
  defer (SubClose hrtSub) (
  wemit HrtStart (
  try_ su.(su_hrt_Start) "failed to start hosted runtime" (
  defer HrtStop (
  wemit HrtNotifierStart (
  try_ su.(su_hrtNotifier_Start) "failed to start runtime notifier" (
  defer HrtNotifierStop (
  worker_loop sched false)))))))))))))))).

(** [worker], after its two leading [defer] statements. *)
Definition worker_body (su : Startup) (sched : list Select) : W :=
  wemit (Log "delaying worker start until after initial synchronization") (
  match su.(su_Synced) with
  | SyncStopped => wreturn
  | Synced =>
      wemit (Log "consensus has finished initial synchronization") (
      match su.(su_ActiveDescriptor) with
      | inr _ => wemit (Log "failed to wait for registry descriptor") wreturn
      | inl rt =>
          wemit (Log "runtime is registered with the registry") (
          wdo (modify (set_CurrentDescriptor (Some rt))) (
          worker_with_descriptor su rt sched))
      end)
  end).

Definition worker (su : Startup) (sched : list Select) : W :=
  wemit (Log "starting committee node") (
  defer CloseQuitCh (
  defer CancelCtx (
  worker_body su sched))).

(** Startup got past the active-descriptor wait. *)
Definition past_descriptor_wait (su : Startup) : Prop :=
  su.(su_Synced) = Synced /\ exists rt, su.(su_ActiveDescriptor) = inl rt.

(** ** Reading traces *)

Definition is_GroupEpochTransition (e : Effect) : bool :=
  match e with GroupEpochTransition _ => true | _ => false end.
Definition is_GroupRoundTransition (e : Effect) : bool :=
  match e with GroupRoundTransition => true | _ => false end.
Definition is_GroupSuspend (e : Effect) : bool :=
  match e with GroupSuspend => true | _ => false end.
Definition is_hook_call (e : Effect) : bool :=
  match e with
  | HookEpochTransition _ _ | HookNewBlockEarly _ _ | HookNewBlock _ _
  | HookNewEvent _ _ | HookRuntimeHostEvent _ _ => true
  | _ => false
  end.
Definition is_TxPoolProcessBlock (e : Effect) : bool :=
  match e with TxPoolProcessBlock _ => true | _ => false end.
Definition is_Log (e : Effect) : bool :=
  match e with Log _ => true | _ => false end.
Definition is_CloseQuitCh (e : Effect) : bool :=
  match e with CloseQuitCh => true | _ => false end.
Definition is_CloseInitCh (e : Effect) : bool :=
  match e with CloseInitCh => true | _ => false end.

Definition count (p : Effect -> bool) (t : Trace) : nat :=
  List.length (filter p t).

Definition is_SelBlock (s : Select) : bool :=
  match s with SelBlock _ _ _ _ => true | _ => false end.

(** ** The simple scheduler (scheduling/simple)

    The scheduler holds a [txpool.TxPool], an interface; the facade is
    written once over any implementation of it. *)

Definition Hash : Type := N.
Definition Weight : Type := string.

Record CheckedTransaction : Type := mkTx {
  tx_Hash : Hash;
  tx_Priority : N;
  tx_Weights : list (Weight * N)
}.

Record Config : Type := mkConfig {
  MaxPoolSize : N;
  WeightLimits : list (Weight * N)
}.

Class TxPool (P : Type) : Type := {
  Add : CheckedTransaction -> P -> option Error * P;
  RemoveBatch : list Hash -> P -> P;
  Size : P -> N;
  IsQueued : Hash -> P -> bool;
  Clear : P -> P;
  UpdateConfig : Config -> P -> P
}.

Section Scheduler.
Context {P : Type} `{TxPool P}.

Record scheduler : Type := mkScheduler {
  txPool : P;
  maxTxPoolSize : N
}.

Definition with_txPool (s : scheduler) (p : P) : scheduler :=
  mkScheduler p s.(maxTxPoolSize).

(** [QueueTx]: the pool's answer is switched on by identity; the third
    component is what went to the logger. *)
Definition QueueTx (tx : CheckedTransaction) (s : scheduler)
  : option Error * scheduler * list string :=
  match Add tx s.(txPool) with
  | (None, p) => (None, with_txPool s p, [])
  | (Some err, p) =>
      if Error_eqb err ErrCallAlreadyExists
      then (None, with_txPool s p, ["ignoring duplicate call"%string])
      else (Some err, with_txPool s p, [])
  end.

Definition RemoveTxBatch (ids : list Hash) (s : scheduler) : scheduler :=
  with_txPool s (RemoveBatch ids s.(txPool)).

Definition UnscheduledSize (s : scheduler) : N := Size s.(txPool).

Definition scheduler_IsQueued (id : Hash) (s : scheduler) : bool :=
  IsQueued id s.(txPool).

Definition scheduler_Clear (s : scheduler) : scheduler :=
  with_txPool s (Clear s.(txPool)).

Definition UpdateParameters (weightLimits : list (Weight * N)) (s : scheduler)
  : scheduler :=
  with_txPool s
    (UpdateConfig (mkConfig s.(maxTxPoolSize) weightLimits) s.(txPool)).
End Scheduler.

Arguments scheduler P : clear implicits.

(** ** The pool behind the facade *)

Module priorityqueue.

(** Modelled from the spec: the pool implementation
    ([txpool/priorityqueue], the only one [simple.New] accepts) is not
    among the sources; this is the pool of the specification's
    "Transaction Admission & Scheduling Pool" contract: [Add] fails with
    the duplicate condition when the identifier is already queued, fails
    with the capacity / weight-limit condition when admitting the
    transaction would exceed [MaxPoolSize] or a configured weight limit,
    and otherwise queues it by priority, ties in arrival order. *)
Record Pool : Type := mkPool {
  cfg : Config;
  queue : list CheckedTransaction
}.

Definition weight_of (w : Weight) (tx : CheckedTransaction) : N :=
  match find (fun kv => String.eqb (fst kv) w) tx.(tx_Weights) with
  | Some kv => snd kv
  | None => 0%N
  end.

Definition total_weight (w : Weight) (q : list CheckedTransaction) : N :=
  fold_right (fun tx acc => (weight_of w tx + acc)%N) 0%N q.

Definition pool_Size (p : Pool) : N := N.of_nat (List.length p.(queue)).

Definition pool_IsQueued (id : Hash) (p : Pool) : bool :=
  existsb (fun tx => N.eqb tx.(tx_Hash) id) p.(queue).

Definition exceeds_limits (p : Pool) (tx : CheckedTransaction) : bool :=
  N.ltb p.(cfg).(MaxPoolSize) (pool_Size p + 1) ||
  existsb
    (fun kv =>
       N.ltb (snd kv) (total_weight (fst kv) p.(queue) + weight_of (fst kv) tx))
    p.(cfg).(WeightLimits).

(** Higher priority first; among equals the earlier arrival first. *)
Fixpoint enqueue (tx : CheckedTransaction) (q : list CheckedTransaction)
  : list CheckedTransaction :=
  match q with
  | [] => [tx]
  | x :: q' =>
      if N.ltb x.(tx_Priority) tx.(tx_Priority)
      then tx :: x :: q'
      else x :: enqueue tx q'
  end.

Definition pool_Add (tx : CheckedTransaction) (p : Pool) : option Error * Pool :=
  if pool_IsQueued tx.(tx_Hash) p then (Some ErrCallAlreadyExists, p)
  else if exceeds_limits p tx then (Some ErrFull, p)
  else (None, mkPool p.(cfg) (enqueue tx p.(queue))).

(** Unknown identifiers are silently ignored. *)
Definition pool_RemoveBatch (ids : list Hash) (p : Pool) : Pool :=
  mkPool p.(cfg)
    (filter (fun tx => negb (existsb (N.eqb tx.(tx_Hash)) ids)) p.(queue)).

Definition pool_Clear (p : Pool) : Pool := mkPool p.(cfg) [].

(** Queued transactions are retained when the configuration changes. *)
Definition pool_UpdateConfig (c : Config) (p : Pool) : Pool :=
  mkPool c p.(queue).

Definition New (c : Config) : Pool := mkPool c [].

#[global] Instance Pool_TxPool : TxPool Pool := {
  Add := pool_Add;
  RemoveBatch := pool_RemoveBatch;
  Size := pool_Size;
  IsQueued := pool_IsQueued;
  Clear := pool_Clear;
  UpdateConfig := pool_UpdateConfig
}.

End priorityqueue.

(** [simple.New] with the priority-queue pool. *)
Definition simple_New (maxTxPoolSize : N) (weightLimits : list (Weight * N))
  : scheduler priorityqueue.Pool :=
  mkScheduler (priorityqueue.New (mkConfig maxTxPoolSize weightLimits))
              maxTxPoolSize.

(** ** Sample collaborators and blocks *)

(** Every lookup succeeds: light block at the asked height, descriptor 1
    without key manager, epoch 3. *)
Definition env_ok : Env :=
  mkEnv (fun h => inl (mkLightBlock h 0))
        (fun _ => inl (mkRuntime 1 None))
        (fun _ => (3%N, None))
        (fun _ => None)
        (mkEpochSnapshot 3%N)
        (fun _ => None).

Definition env_no_light_block : Env :=
  mkEnv (fun _ => inr (ErrMsg "light block not found"))
        env_ok.(GetRuntime) env_ok.(GetEpoch)
        env_ok.(Group_EpochTransition) env_ok.(GetEpochSnapshot)
        env_ok.(TxPool_ProcessBlock).

(** The registry answers "no such runtime", wrapped once. *)
Definition env_suspended : Env :=
  mkEnv env_ok.(GetLightBlock)
        (fun _ => inr (ErrWrap "registry" ErrNoSuchRuntime))
        env_ok.(GetEpoch)
        env_ok.(Group_EpochTransition) env_ok.(GetEpochSnapshot)
        env_ok.(TxPool_ProcessBlock).

Definition block_of (round : N) (ty : block.HeaderType) : block.Block :=
  block.mkBlock (block.mkHeader round ty).

(** A node with one hook that has already seen round 1 at height 10 and
    holds descriptor 1, epoch 2. *)
Definition node_running : Node :=
  mkNode [7%nat] false false (Some (block_of 1 block.Normal)) 10
         (Some (mkLightBlock 10 0)) (Some (mkRuntime 1 None)) 2%N 10.

(** ** Outcome of the lookups of one handler call *)

Definition is_ok {A} (r : result A) : bool :=
  match r with inl _ => true | inr _ => false end.

Definition is_none {A} (o : option A) : bool :=
  match o with None => true | Some _ => false end.

(** The light block is fetched, the descriptor lookup succeeds or says "no
    such runtime", the epoch is fetched. *)
Definition refresh_succeeds (env : Env) (height : Z) : bool :=
  match env.(GetRuntime) height with
  | inl _ => true
  | inr err => errors_Is err ErrNoSuchRuntime
  end &&
  is_none (snd (env.(GetEpoch) height)).

Definition lookups_succeed (env : Env) (height : Z) : bool :=
  is_ok (env.(GetLightBlock) height) && refresh_succeeds env height.

Definition firstBlock (n : Node) : bool :=
  match n.(CurrentBlock) with None => true | Some _ => false end.

Definition refreshes (n : Node) (blk : block.Block) : bool :=
  firstBlock n ||
  block.HeaderType_eqb blk.(block.Header_).(block.HeaderType_)
                       block.EpochTransition.

Definition recognized (ty : block.HeaderType) : bool :=
  match ty with block.Unrecognized _ => false | _ => true end.

Definition is_HookEpochTransition (e : Effect) : bool :=
  match e with HookEpochTransition _ _ => true | _ => false end.
Definition is_HookNewBlockEarly (e : Effect) : bool :=
  match e with HookNewBlockEarly _ _ => true | _ => false end.
Definition is_HookNewBlock (e : Effect) : bool :=
  match e with HookNewBlock _ _ => true | _ => false end.

(** The node after step 2 of the handler: block, height and light block
    committed, nothing else touched. *)
Definition commit_block (blk : block.Block) (height : Z) (lb : LightBlock)
  (n : Node) : Node :=
  set_CurrentConsensusBlock (Some lb)
    (set_CurrentBlockHeight height (set_CurrentBlock (Some blk) n)).

(** A node past startup that has not yet received a block: one hook,
    descriptor 1 from the active-descriptor wait. *)
Definition node_started : Node :=
  set_CurrentDescriptor (Some (mkRuntime 1 None)) (AddHooks 7%nat NewNode).

Definition is_dispatch (e : Effect) : bool :=
  is_GroupEpochTransition e || is_GroupRoundTransition e || is_GroupSuspend e.

(** The block goes through the whole handler: every lookup it needs
    succeeds and its type is one the handler dispatches on. *)
Definition processed (env : Env) (blk : block.Block) (height : Z) (n : Node)
  : bool :=
  is_ok (env.(GetLightBlock) height) &&
  (if refreshes n blk then refresh_succeeds env height else true) &&
  recognized blk.(block.Header_).(block.HeaderType_).

(** Blocks handed to the handler one after the other, each with the
    collaborators' answers at that time. *)
Definition deliver (bs : list (Env * block.Block * Z)) : M unit :=
  for_each bs (fun b =>
    match b with
    | (env, blk, height) => call (handleNewBlockLocked env blk height)
    end).

(** The transitions signalled to the committee group. *)
Inductive Transition : Type :=
| TEpochTransition (height : Z)
| TRoundTransition
| TSuspend.

Definition transition_of (e : Effect) : option Transition :=
  match e with
  | GroupEpochTransition h => Some (TEpochTransition h)
  | GroupRoundTransition => Some TRoundTransition
  | GroupSuspend => Some TSuspend
  | _ => None
  end.

Fixpoint transitions (t : Trace) : list Transition :=
  match t with
  | [] => []
  | e :: t' =>
      match transition_of e with
      | Some x => x :: transitions t'
      | None => transitions t'
      end
  end.

(** What the hooks are told apart from the two per-block callbacks. *)
Definition is_hook_notification (e : Effect) : bool :=
  is_hook_call e && negb (is_HookNewBlockEarly e || is_HookNewBlock e).

Definition scenario_blocks : list (Env * block.Block * Z) :=
  [ (env_ok, block_of 1 block.Normal, 10);
    (env_ok, block_of 2 block.Normal, 11);
    (env_ok, block_of 3 block.EpochTransition, 12);
    (env_ok, block_of 4 block.Suspended, 13) ].

(** The transition a processed block stands for. *)
Definition transition_for (first : bool) (ty : block.HeaderType) (height : Z)
  : Transition :=
  match ty with
  | block.EpochTransition => TEpochTransition height
  | block.Suspended => TSuspend
  | _ => if first then TEpochTransition height else TRoundTransition
  end.

(** What the pool's answer to [ProcessBlock] adds to the log. *)
Definition pool_log (env : Env) (bi : BlockInfo) : Trace :=
  match env.(TxPool_ProcessBlock) bi with
  | Some _ => [Log "failed to process block in transaction pool"]
  | None => []
  end.

(** ** Reading a worker run *)

Definition woutcome (r : Outcome * Node * Trace) : Outcome := fst (fst r).
Definition wnode (r : Outcome * Node * Trace) : Node := snd (fst r).
Definition wtrace (r : Outcome * Node * Trace) : Trace := snd r.

(** Selections that neither end the loop nor deliver a runtime block. *)
Definition quiet (s : Select) : bool :=
  match s with
  | SelConsensusBlock (Some _) | SelEvent _ | SelHostEvent _ => true
  | _ => false
  end.

Definition is_HookInitialized (w : HookWait) : bool :=
  match w with HookInitialized => true | _ => false end.

(** The mark a call of [handleNewBlockLocked] leaves in the trace. *)
Definition is_block_handled (e : Effect) : bool :=
  match e with MetricInc processedBlockCount => true | _ => false end.

(** A startup in which every call succeeds; the runtime needs no key
    manager. *)
Definition su_ok : Startup :=
  mkStartup Synced (inl (mkRuntime 1 None)) None KMInitialized
            None None None None None None None.

(** A worker fragment emits at most [k] effects satisfying [p]. *)
Definition wbounded (p : Effect -> bool) (k : nat) (w : W) : Prop :=
  forall n, (count p (wtrace (w n)) <= k)%nat.

(** A worker fragment keeps the node invariant [I]. *)
Definition wkeeps (I : Node -> Prop) (w : W) : Prop :=
  forall n, I n -> I (wnode (w n)).

(** Effects of the startup and teardown of the worker that are neither
    logs nor channel closes. *)
Definition is_service_effect (e : Effect) : bool :=
  match e with
  | CancelCtx | SubClose _ | HrtStart | HrtStop
  | HrtNotifierStart | HrtNotifierStop => true
  | _ => false
  end.

(** The scenario of the specification: room for two transactions, weight
    limit 1000 on "size"; transactions A, B, C of weight 10 each. *)
Definition tx_A : CheckedTransaction := mkTx 101%N 0%N [("size"%string, 10%N)].
Definition tx_B : CheckedTransaction := mkTx 102%N 0%N [("size"%string, 10%N)].
Definition tx_C : CheckedTransaction := mkTx 103%N 0%N [("size"%string, 10%N)].

Definition scheduler_empty : scheduler priorityqueue.Pool :=
  simple_New 2%N [("size"%string, 1000%N)].

Definition scheduler_with_A : scheduler priorityqueue.Pool :=
  snd (fst (QueueTx tx_A scheduler_empty)).

(** ** Start

    [Start] talks to the group and the pool and then spawns the worker;
    its effects are of their own kind. *)

Inductive StartEffect : Type :=
| GroupStart
| TxPoolStart
| GoWorker.

Definition Start (group_Start txPool_Start : option Error)
  : option Error * list StartEffect :=
  match group_Start with
  | Some err =>
      (Some (ErrWrap "failed to start group services" err), [GroupStart])
  | None =>
      match txPool_Start with
      | Some err =>
          (Some (ErrWrap "failed to start transaction pool" err),
           [GroupStart; TxPoolStart])
      | None => (None, [GroupStart; TxPoolStart; GoWorker])
      end
  end.

(** ** GetStatus

    The epoch snapshot's committee and scheduler queries and the peer list
    are answers of the collaborators. *)

Record Status : Type := mkStatus {
  LatestRound : N;
  LatestHeight : Z;
  ExecutorRoles : list N;
  IsTransactionScheduler : bool;
  Peers : list string
}.

Record StatusEnv : Type := mkStatusEnv {
  GetExecutorCommittee : option (list N);      (* nil, or cmte.Roles *)
  epoch_IsTransactionScheduler : N -> bool;
  P2P_Peers : list string
}.

Definition GetStatus (senv : StatusEnv) (n : Node) : Status * option Error :=
  let LatestRound_ :=
    match n.(CurrentBlock) with
    | Some blk => blk.(block.Header_).(block.Round)
    | None => 0%N
    end in
  let LatestHeight_ :=
    match n.(CurrentBlock) with
    | Some _ => n.(CurrentBlockHeight)
    | None => 0
    end in
  let ExecutorRoles_ :=
    match senv.(GetExecutorCommittee) with
    | Some roles => roles
    | None => []
    end in
  (mkStatus LatestRound_ LatestHeight_ ExecutorRoles_
            (senv.(epoch_IsTransactionScheduler) LatestRound_)
            senv.(P2P_Peers),
   None).

(** ** Reading more of a run *)

(** Effects a handler can have: metrics, logs, group calls, hook
    callbacks, the pool's block update. *)
Definition is_handler_effect (e : Effect) : bool :=
  match e with
  | MetricInc _ | MetricSetEpochNumber _ | Log _
  | GroupEpochTransition _ | GroupSuspend | GroupRoundTransition
  | HookEpochTransition _ _ | HookNewBlockEarly _ _ | HookNewBlock _ _
  | HookNewEvent _ _ | HookRuntimeHostEvent _ _
  | TxPoolProcessBlock _ => true
  | _ => false
  end.

(** Effects of the event loop: those of the handlers and the close of
    initCh. *)
Definition is_loop_effect (e : Effect) : bool :=
  is_handler_effect e || is_CloseInitCh e.

(** A current block comes with its light block; without a current block
    there is neither light block nor block height. *)
Definition block_consistent (n : Node) : Prop :=
  match n.(CurrentBlock) with
  | Some _ => n.(CurrentConsensusBlock) <> None
  | None => n.(CurrentConsensusBlock) = None /\ n.(CurrentBlockHeight) = 0
  end.

(** The key-manager stage lets the worker through. *)
Definition keymanager_ready (su : Startup) (rt : Runtime) : bool :=
  match rt.(RT_KeyManager) with
  | None => true
  | Some _ =>
      is_none su.(su_keymanagerClient_New) &&
      match su.(su_KeyManagerClient_Initialized) with
      | KMInitialized => true
      | KMCtxDone => false
      end
  end.

(** Every step of the startup succeeds: the worker reaches its loop. *)
Definition startup_succeeds (su : Startup) : bool :=
  match su.(su_Synced), su.(su_ActiveDescriptor) with
  | Synced, inl rt =>
      keymanager_ready su rt &&
      is_none su.(su_Consensus_WatchBlocks) &&
      is_none su.(su_RootHash_WatchBlocks) &&
      is_none su.(su_RootHash_WatchEvents) &&
      is_none su.(su_ProvisionHostedRuntime) &&
      is_none su.(su_hrt_WatchEvents) &&
      is_none su.(su_hrt_Start) &&
      is_none su.(su_hrtNotifier_Start)
  | _, _ => false
  end.

(** What a worker that reached its loop runs on return, in this order. *)
Definition teardown : Trace :=
  [ HrtNotifierStop; HrtStop; SubClose hrtSub; SubClose eventsSub;
    SubClose blocksSub; SubClose consensusBlocksSub; CancelCtx; CloseQuitCh ].

Definition is_teardown (e : Effect) : bool :=
  match e with
  | HrtNotifierStop | HrtStop | SubClose _ | CancelCtx | CloseQuitCh => true
  | _ => false
  end.

Definition is_HrtStart (e : Effect) : bool :=
  match e with HrtStart => true | _ => false end.
Definition is_HrtStop (e : Effect) : bool :=
  match e with HrtStop => true | _ => false end.
Definition is_HrtNotifierStart (e : Effect) : bool :=
  match e with HrtNotifierStart => true | _ => false end.
Definition is_HrtNotifierStop (e : Effect) : bool :=
  match e with HrtNotifierStop => true | _ => false end.
Definition is_SubClose (e : Effect) : bool :=
  match e with SubClose _ => true | _ => false end.

Definition is_consensus_block (s : Select) : bool :=
  match s with SelConsensusBlock (Some _) => true | _ => false end.

Definition is_epochTransitionCount (e : Effect) : bool :=
  match e with MetricInc epochTransitionCount => true | _ => false end.
Definition is_failedRoundCount (e : Effect) : bool :=
  match e with MetricInc failedRoundCount => true | _ => false end.
Definition is_processedEventCount (e : Effect) : bool :=
  match e with MetricInc processedEventCount => true | _ => false end.

(** The collaborators of [env], except that the group's epoch transition
    and the pool's block update answer as given. *)
Definition with_answers (env : Env) (ge : Z -> option Error)
  (pb : BlockInfo -> option Error) : Env :=
  mkEnv env.(GetLightBlock) env.(GetRuntime) env.(GetEpoch) ge
        env.(GetEpochSnapshot) pb.

(** ** Sequences of calls on the scheduler *)

Inductive FacadeCall : Type :=
| CallQueueTx (tx : CheckedTransaction)
| CallRemoveTxBatch (ids : list Hash)
| CallClear
| CallUpdateParameters (weightLimits : list (Weight * N)).

Definition facade_call {P : Type} `{TxPool P} (c : FacadeCall)
  (s : scheduler P) : scheduler P :=
  match c with
  | CallQueueTx tx => snd (fst (QueueTx tx s))
  | CallRemoveTxBatch ids => RemoveTxBatch ids s
  | CallClear => scheduler_Clear s
  | CallUpdateParameters w => UpdateParameters w s
  end.

Definition facade_calls {P : Type} `{TxPool P} (cs : list FacadeCall)
  (s : scheduler P) : scheduler P :=
  fold_left (fun s c => facade_call c s) cs s.

(** What a startup that succeeds emits before the loop, given the
    descriptor it found. *)
Definition startup_effects (rt : Runtime) : Trace :=
  [ Log "starting committee node";
    Log "delaying worker start until after initial synchronization";
    Log "consensus has finished initial synchronization";
    Log "runtime is registered with the registry" ] ++
  match rt.(RT_KeyManager) with
  | Some _ =>
      [ Log "runtime indicates a key manager is required, waiting for it to be ready";
        Log "runtime has a key manager available" ]
  | None => []
  end ++
  [ HrtStart; HrtNotifierStart ].

(** The node when the loop starts. *)
Definition node_at_loop (rt : Runtime) (n : Node) : Node :=
  match rt.(RT_KeyManager) with
  | Some _ => set_KeyManagerClient true (set_CurrentDescriptor (Some rt) n)
  | None => set_CurrentDescriptor (Some rt) n
  end.

(** A startup whose subscription to the roothash blocks fails, and one
    whose hosted runtime does not start. *)
Definition su_no_blocks : Startup :=
  mkStartup Synced (inl (mkRuntime 1 None)) None KMInitialized
            None (Some (ErrMsg "subscription refused")) None None None None None.

Definition su_hrt_fails : Startup :=
  mkStartup Synced (inl (mkRuntime 1 None)) None KMInitialized
            None None None None None (Some (ErrMsg "no runtime binary")) None.


(** * Lemmas *)

Arguments count : simpl never.

Lemma for_each_emit (f : HookId -> Effect) hs n :
  for_each hs (fun h => emit (f h)) n = (Some tt, n, map f hs).
Proof.
  induction hs as [|h hs IH]; [reflexivity|].
  cbn [for_each]. unfold bind at 1. cbn [emit]. rewrite IH. reflexivity.
Qed.

Lemma for_each_emitted (f : HookId -> Effect) hs n :
  for_each hs (fun (h : HookId) (n0 : Node) => (Some tt, n0, [f h])) n
  = (Some tt, n, map f hs).
Proof. exact (for_each_emit f hs n). Qed.

Lemma count_app p a b : count p (a ++ b) = (count p a + count p b)%nat.
Proof. unfold count. rewrite filter_app, length_app. reflexivity. Qed.

Lemma count_cons p e t :
  count p (e :: t) = ((if p e then 1 else 0) + count p t)%nat.
Proof. unfold count. cbn. destruct (p e); reflexivity. Qed.

Lemma count_nil p : count p [] = 0%nat.
Proof. reflexivity. Qed.

Lemma count_map_none (p : Effect -> bool) (f : HookId -> Effect) hs :
  (forall h, p (f h) = false) -> count p (map f hs) = 0%nat.
Proof.
  intros Hf. induction hs as [|h hs IH]; [reflexivity|].
  cbn [map]. rewrite count_cons, Hf, IH. reflexivity.
Qed.

Lemma count_map_all (p : Effect -> bool) (f : HookId -> Effect) hs :
  (forall h, p (f h) = true) -> count p (map f hs) = List.length hs.
Proof.
  intros Hf. induction hs as [|h hs IH]; [reflexivity|].
  cbn [map]. rewrite count_cons, Hf, IH. reflexivity.
Qed.

Ltac unfold_handlers :=
  unfold run, handleNewBlockLocked, dispatchHeaderType,
    handleEpochTransitionLocked,
    handleSuspendLocked, handleNewEventLocked, handleRuntimeHostEvent,
    bind, emit, get, modify, ret, return_, call.

Ltac hooks_done := repeat (rewrite for_each_emitted; cbn).

(** Case analysis on every answer the handler reads, in program order. *)
Ltac by_lookups env height :=
  try match goal with
      | |- context [GetLightBlock env height] =>
          destruct (GetLightBlock env height) as [?lb|?e] eqn:?HLB;
          cbn; hooks_done
      end;
  try match goal with
      | |- context [GetRuntime env height] =>
          destruct (GetRuntime env height) as [?ad|?e] eqn:?HRT;
          cbn; hooks_done
      end;
  try match goal with
      | |- context [errors_Is ?e ErrNoSuchRuntime] =>
          destruct (errors_Is e ErrNoSuchRuntime) eqn:?HIS; cbn; hooks_done
      end;
  try match goal with
      | |- context [GetEpoch env height] =>
          destruct (GetEpoch env height) as [?ep [?e|]] eqn:?HEP;
          cbn; hooks_done
      end;
  try match goal with
      | |- context [Group_EpochTransition env height] =>
          destruct (Group_EpochTransition env height) eqn:?HGE;
          cbn; hooks_done
      end;
  try match goal with
      | |- context [TxPool_ProcessBlock env ?bi] =>
          destruct (TxPool_ProcessBlock env bi) eqn:?HPB; cbn; hooks_done
      end.

Ltac counted :=
  repeat (rewrite ?count_app, ?count_cons, ?count_nil,
            ?count_map_none, ?count_map_all by reflexivity; cbn).

Ltac by_header blk :=
  destruct (block.HeaderType_ (block.Header_ blk)) eqn:?Hty; cbn.

(** ** The per-block handler *)

(** C4: when the light-block fetch at the block's height fails, the handler
    returns with the node exactly as it was (so all five protected fields
    are unchanged) and its only effects are the processed-block metric and
    the error log: no hook callback, no pool update, no group transition. *)
Theorem light_block_failure_discards_update env blk height n err :
  env.(GetLightBlock) height = inr err ->
  let '(n', t) := run (handleNewBlockLocked env blk height) n in
  n' = n /\ protected_eq n' n /\
  t = [MetricInc processedBlockCount; Log "failed to query light block"] /\
  count is_hook_call t = 0%nat /\ count is_TxPoolProcessBlock t = 0%nat.
Proof.
  intros HLB. unfold_handlers. cbn. rewrite HLB. cbn.
  unfold protected_eq. repeat split.
Qed.

Lemma light_block_failure_discards_update_witness :
  run (handleNewBlockLocked env_no_light_block (block_of 2 block.Normal) 11)
      node_running
  = (node_running,
     [MetricInc processedBlockCount; Log "failed to query light block"]).
Proof.
  pose proof (light_block_failure_discards_update env_no_light_block
                (block_of 2 block.Normal) 11 node_running
                (ErrMsg "light block not found") eq_refl) as H.
  destruct (run (handleNewBlockLocked env_no_light_block
                   (block_of 2 block.Normal) 11) node_running) as [n' t].
  destruct H as (Hn & _ & Ht & _). rewrite Hn, Ht. reflexivity.
Defined.

(** "First block" is the handler's [firstBlockReceived], that is
    [CurrentBlock == nil]: a block dropped for want of a light block does
    not count, the next one is still the first. *)
Example dropped_block_is_not_received :
  firstBlock (fst (run (handleNewBlockLocked env_no_light_block
                          (block_of 1 block.Normal) 10) node_started)) = true.
Proof. reflexivity. Qed.

(** C9: a block that is neither the first one received nor of type
    EpochTransition leaves CurrentDescriptor and CurrentEpoch as they were,
    whatever the collaborators answer. *)
Theorem descriptor_and_epoch_frame env blk height n :
  n.(CurrentBlock) <> None ->
  blk.(block.Header_).(block.HeaderType_) <> block.EpochTransition ->
  let n' := fst (run (handleNewBlockLocked env blk height) n) in
  n'.(CurrentDescriptor) = n.(CurrentDescriptor) /\
  n'.(CurrentEpoch) = n.(CurrentEpoch).
Proof.
  intros Hcb Hty. unfold_handlers. cbn.
  destruct (CurrentBlock n) as [b|] eqn:Hb; [|congruence].
  by_header blk; try congruence; by_lookups env height; auto.
Qed.

Lemma descriptor_and_epoch_frame_witness :
  let n' := fst (run (handleNewBlockLocked env_ok (block_of 2 block.Suspended) 11)
                     node_running) in
  n'.(CurrentDescriptor) = Some (mkRuntime 1 None) /\ n'.(CurrentEpoch) = 2%N.
Proof.
  apply (descriptor_and_epoch_frame env_ok (block_of 2 block.Suspended) 11
           node_running); cbn; discriminate.
Defined.

(** C1, as stated, fails: a first block of type Suspended, with every
    lookup succeeding, is handled as a suspend; the group's epoch
    transition is not performed. *)
Lemma first_block_suspended_is_not_epoch_transition :
  let blk := block_of 1 block.Suspended in
  let t := snd (run (handleNewBlockLocked env_ok blk 10) node_started) in
  node_started.(CurrentBlock) = None /\
  count is_GroupEpochTransition t <> 1%nat /\
  count is_GroupEpochTransition t = 0%nat /\
  count is_GroupSuspend t = 1%nat.
Proof. cbv. repeat split; discriminate. Qed.

(** C1 (amended): on the first block received no round transition is ever
    signalled; when the lookups of the refresh succeed, a first block of
    type Normal, RoundFailed or EpochTransition performs exactly one epoch
    transition and no suspend, while a first block of type Suspended
    performs exactly one suspend (each hook's epoch-transition callback is
    invoked once) and no epoch transition. *)
Theorem first_block_dispatch env blk height n :
  n.(CurrentBlock) = None ->
  let t := snd (run (handleNewBlockLocked env blk height) n) in
  count is_GroupRoundTransition t = 0%nat /\
  (lookups_succeed env height = true ->
   match blk.(block.Header_).(block.HeaderType_) with
   | block.Normal | block.RoundFailed | block.EpochTransition =>
       count is_GroupEpochTransition t = 1%nat /\
       count is_GroupSuspend t = 0%nat
   | block.Suspended =>
       count is_GroupEpochTransition t = 0%nat /\
       count is_GroupSuspend t = 1%nat /\
       count is_HookEpochTransition t = List.length n.(hooks)
   | block.Unrecognized _ =>
       count is_dispatch t = 0%nat
   end).
Proof.
  intros Hcb. unfold lookups_succeed, refresh_succeeds.
  unfold_handlers. cbn. rewrite Hcb. cbn.
  by_header blk; by_lookups env height; counted;
    (split; [reflexivity|]); cbn; try discriminate;
    intros _; repeat split; lia.
Qed.

Lemma first_block_dispatch_witness :
  let t := snd (run (handleNewBlockLocked env_ok (block_of 1 block.RoundFailed) 10)
                    node_started) in
  count is_GroupRoundTransition t = 0%nat /\
  count is_GroupEpochTransition t = 1%nat /\
  count is_GroupSuspend t = 0%nat.
Proof.
  pose proof (first_block_dispatch env_ok (block_of 1 block.RoundFailed) 10
                node_started eq_refl) as [H0 H1].
  split; [exact H0|exact (H1 eq_refl)].
Defined.

(** C2, as stated, fails: a block of unrecognised type reaches the dispatch
    only after the current block has been committed and the hooks' early
    callbacks have run. *)
Lemma unrecognized_block_changes_state :
  let blk := block_of 2 (block.Unrecognized 0) in
  let '(n', t) := run (handleNewBlockLocked env_ok blk 11) node_running in
  ~ protected_eq n' node_running /\
  n'.(CurrentBlock) = Some blk /\
  n'.(CurrentBlockHeight) = 11 /\
  t = [MetricInc processedBlockCount; HookNewBlockEarly 7%nat blk;
       Log "invalid block type"] /\
  count is_hook_call t = 1%nat.
Proof.
  cbv. repeat split; try reflexivity.
  intros (H & _). discriminate H.
Qed.

(** C2 (amended): for a block of unrecognised header type no transition is
    dispatched, the pool's ProcessBlock is not called and no hook's
    new-block or epoch-transition callback is invoked.  When the light-block
    fetch succeeds, CurrentBlock, CurrentBlockHeight and
    CurrentConsensusBlock are committed to the new block; if moreover the
    block is not the first one, the rest of the node is unchanged and the
    effects are exactly: the metric, every hook's early callback, the
    "invalid block type" log. *)
Theorem unrecognized_block_dropped_after_commit env blk height n code :
  blk.(block.Header_).(block.HeaderType_) = block.Unrecognized code ->
  let '(n', t) := run (handleNewBlockLocked env blk height) n in
  (count is_dispatch t = 0%nat /\
   count is_TxPoolProcessBlock t = 0%nat /\
   count is_HookNewBlock t = 0%nat /\
   count is_HookEpochTransition t = 0%nat) /\
  (forall lb, env.(GetLightBlock) height = inl lb ->
     n'.(CurrentBlock) = Some blk /\
     n'.(CurrentBlockHeight) = height /\
     n'.(CurrentConsensusBlock) = Some lb /\
     (n.(CurrentBlock) <> None ->
        n' = commit_block blk height lb n /\
        t = MetricInc processedBlockCount
            :: map (fun h => HookNewBlockEarly h blk) n.(hooks)
            ++ [Log "invalid block type"])).
Proof.
  intros Hty. unfold_handlers. cbn. rewrite Hty. cbn.
  destruct (CurrentBlock n) as [b|] eqn:Hb; cbn;
    by_lookups env height; counted;
    (split; [repeat split|]);
    first [ intros ? [=] | intros ? [= <-] ];
    repeat split; try reflexivity; intros; try congruence;
    subst; reflexivity.
Qed.

Lemma unrecognized_block_dropped_after_commit_witness :
  let blk := block_of 2 (block.Unrecognized 0) in
  let '(n', t) := run (handleNewBlockLocked env_ok blk 11) node_running in
  n' = commit_block blk 11 (mkLightBlock 11 0) node_running /\
  count is_TxPoolProcessBlock t = 0%nat.
Proof.
  pose proof (unrecognized_block_dropped_after_commit env_ok
                (block_of 2 (block.Unrecognized 0)) 11 node_running 0%N
                eq_refl) as H.
  cbv zeta.
  destruct (run (handleNewBlockLocked env_ok (block_of 2 (block.Unrecognized 0)) 11)
                node_running) as [n' t].
  destruct H as ((_ & Hp & _) & H).
  destruct (H (mkLightBlock 11 0) eq_refl) as (_ & _ & _ & Hn).
  split; [apply Hn; discriminate|exact Hp].
Defined.

(** ** Order of the steps, sequences of blocks *)

Lemma run_call_then (m k : M unit) n :
  run (call m ;;; k) n =
  match run m n with
  | (n1, t1) => match run k n1 with (n2, t2) => (n2, t1 ++ t2) end
  end.
Proof.
  unfold run, bind, call.
  destruct (m n) as [[r1 n1] t1]. destruct (k n1) as [[r2 n2] t2].
  reflexivity.
Qed.

Lemma run_deliver_cons env blk height bs n :
  run (deliver ((env, blk, height) :: bs)) n =
  match run (handleNewBlockLocked env blk height) n with
  | (n1, t1) => match run (deliver bs) n1 with (n2, t2) => (n2, t1 ++ t2) end
  end.
Proof. exact (run_call_then _ _ n). Qed.

Lemma run_deliver_nil n : run (deliver []) n = (n, []).
Proof. reflexivity. Qed.

Lemma transitions_app a b : transitions (a ++ b) = transitions a ++ transitions b.
Proof.
  induction a as [|e a IH]; [reflexivity|].
  cbn. destruct (transition_of e); cbn; rewrite IH; reflexivity.
Qed.

Lemma transitions_map_none (f : HookId -> Effect) hs :
  (forall h, transition_of (f h) = None) -> transitions (map f hs) = [].
Proof.
  intros Hf. induction hs as [|h hs IH]; [reflexivity|].
  cbn. rewrite Hf. exact IH.
Qed.

Ltac transitioned :=
  repeat (rewrite ?transitions_app, ?transitions_map_none by reflexivity; cbn).

(** C5: during the descriptor refresh (first block, or EpochTransition
    block), a lookup error that is "no such runtime" is not an error: the
    handler keeps CurrentDescriptor and goes on.  It stores the epoch the
    beacon returns; when the beacon reports no error, a block of a
    recognised type is processed to the end (every hook's early callback,
    the dispatch with its one transition, the pool's ProcessBlock with the
    retained descriptor and the new epoch, every hook's new-block
    callback) and a block of unrecognised type is dropped at the dispatch;
    when the beacon reports an error the handler stops after logging it.
    Any other lookup error ends the handler right there: only the block,
    height and light block have been committed, and nothing but the error
    is logged. *)
Theorem no_such_runtime_keeps_descriptor env blk height n lb err :
  refreshes n blk = true ->
  env.(GetLightBlock) height = inl lb ->
  env.(GetRuntime) height = inr err ->
  let '(n', t) := run (handleNewBlockLocked env blk height) n in
  let ty := blk.(block.Header_).(block.HeaderType_) in
  let ep := fst (env.(GetEpoch) height) in
  (errors_Is err ErrNoSuchRuntime = true ->
     n'.(CurrentDescriptor) = n.(CurrentDescriptor) /\
     n' = set_CurrentEpoch ep (commit_block blk height lb n) /\
     (snd (env.(GetEpoch) height) = None ->
        (recognized ty = true ->
           let d :=
             snd (run (dispatchHeaderType env blk (firstBlock n) height) n') in
           let bi := mkBlockInfo (Some blk) (Some lb) ep n.(CurrentDescriptor) in
           t = MetricInc processedBlockCount
               :: map (fun h => HookNewBlockEarly h blk) n.(hooks)
               ++ d
               ++ TxPoolProcessBlock bi
               :: pool_log env bi
               ++ map (fun h => HookNewBlock h blk) n.(hooks) /\
           transitions t = [transition_for (firstBlock n) ty height]) /\
        (recognized ty = false ->
           t = MetricInc processedBlockCount
               :: map (fun h => HookNewBlockEarly h blk) n.(hooks)
               ++ [Log "invalid block type"])) /\
     (snd (env.(GetEpoch) height) <> None ->
        t = [MetricInc processedBlockCount;
             Log "failed to fetch current epoch"])) /\
  (errors_Is err ErrNoSuchRuntime = false ->
     n' = commit_block blk height lb n /\
     t = [MetricInc processedBlockCount;
          Log "failed to query runtime descriptor"]).
Proof.
  intros Href HLB HRT. unfold refreshes, firstBlock in Href.
  unfold pool_log, firstBlock.
  unfold_handlers. cbn. rewrite HLB. cbn.
  destruct (CurrentBlock n) as [b|] eqn:Hb; cbn in Href |- *;
    by_header blk; try discriminate Href; rewrite ?HRT; cbn;
    destruct (errors_Is err ErrNoSuchRuntime) eqn:HIS; cbn;
    destruct (GetEpoch env height) as [ep [e|]] eqn:HEP; cbn; hooks_done;
    try (destruct (Group_EpochTransition env height); cbn; hooks_done);
    try match goal with
      | |- context [TxPool_ProcessBlock env ?bi] =>
          destruct (TxPool_ProcessBlock env bi) eqn:HPB; cbn; hooks_done
      end;
    (split; intros Hx; try discriminate Hx);
    try (split; reflexivity);
    (split; [reflexivity|]); (split; [reflexivity|]);
    (split; intros Hn; try discriminate Hn; try congruence;
     try reflexivity);
    (split; intros Hr; try discriminate Hr; try reflexivity);
    (split; [rewrite ?HPB; reflexivity|]);
    transitioned; reflexivity.
Qed.

Lemma no_such_runtime_keeps_descriptor_witness :
  let '(n', t) := run (handleNewBlockLocked env_suspended
                         (block_of 2 block.EpochTransition) 11)
                      node_running in
  n'.(CurrentDescriptor) = Some (mkRuntime 1 None) /\
  n'.(CurrentEpoch) = 3%N /\
  transitions t = [TEpochTransition 11].
Proof.
  pose proof (no_such_runtime_keeps_descriptor env_suspended
                (block_of 2 block.EpochTransition) 11 node_running
                (mkLightBlock 11 0) (ErrWrap "registry" ErrNoSuchRuntime)
                eq_refl eq_refl eq_refl) as H.
  destruct (run (handleNewBlockLocked env_suspended
                   (block_of 2 block.EpochTransition) 11) node_running)
    as [n' t].
  destruct H as [H _]. destruct (H eq_refl) as (Hd & Hn & Hok & _).
  split; [exact Hd|]. split; [rewrite Hn; reflexivity|].
  exact (proj2 (proj1 (Hok eq_refl) eq_refl)).
Defined.

Lemma processed_block_summary env blk height n :
  processed env blk height n = true ->
  let '(n', t) := run (handleNewBlockLocked env blk height) n in
  let tr := transition_for (firstBlock n)
              blk.(block.Header_).(block.HeaderType_) height in
  n'.(CurrentBlock) = Some blk /\ n'.(hooks) = n.(hooks) /\
  transitions t = [tr] /\
  count is_HookNewBlockEarly t = List.length n.(hooks) /\
  count is_HookNewBlock t = List.length n.(hooks) /\
  count is_HookEpochTransition t =
    match tr with TRoundTransition => 0%nat | _ => List.length n.(hooks) end /\
  count is_hook_notification t = count is_HookEpochTransition t.
Proof.
  unfold processed, refreshes, refresh_succeeds, firstBlock.
  unfold_handlers. cbn.
  destruct (CurrentBlock n) as [b|] eqn:Hb; cbn;
    by_header blk; by_lookups env height; cbn; try discriminate;
    intros _; counted; transitioned; repeat split; lia.
Qed.

Lemma processed_block_order env blk height n :
  processed env blk height n = true ->
  let '(n', t) := run (handleNewBlockLocked env blk height) n in
  let d := snd (run (dispatchHeaderType env blk (firstBlock n) height) n') in
  let bi := mkBlockInfo n'.(CurrentBlock) n'.(CurrentConsensusBlock)
                        n'.(CurrentEpoch) n'.(CurrentDescriptor) in
  t = MetricInc processedBlockCount
      :: map (fun h => HookNewBlockEarly h blk) n.(hooks)
      ++ d
      ++ TxPoolProcessBlock bi
      :: pool_log env bi
      ++ map (fun h => HookNewBlock h blk) n.(hooks) /\
  count is_dispatch d = 1%nat /\
  count is_HookNewBlockEarly d = 0%nat /\
  count is_TxPoolProcessBlock d = 0%nat /\
  count is_HookNewBlock d = 0%nat.
Proof.
  unfold processed, refreshes, refresh_succeeds, firstBlock, pool_log.
  unfold_handlers. cbn.
  destruct (CurrentBlock n) as [b|] eqn:Hb; cbn;
    by_header blk; by_lookups env height; cbn; try discriminate;
    intros _; rewrite ?HPB; (split; [reflexivity|]); counted; repeat split.
Qed.

Lemma scenario_dispatch e1 e2 e3 e4 r1 r2 r3 r4 h1 h2 h3 h4 n :
  n.(CurrentBlock) = None ->
  lookups_succeed e1 h1 = true ->
  is_ok (e2.(GetLightBlock) h2) = true ->
  lookups_succeed e3 h3 = true ->
  is_ok (e4.(GetLightBlock) h4) = true ->
  let t := snd (run (deliver [ (e1, block_of r1 block.Normal, h1);
                               (e2, block_of r2 block.Normal, h2);
                               (e3, block_of r3 block.EpochTransition, h3);
                               (e4, block_of r4 block.Suspended, h4) ]) n) in
  transitions t =
    [TEpochTransition h1; TRoundTransition; TEpochTransition h3; TSuspend] /\
  count is_HookEpochTransition t = (3 * List.length n.(hooks))%nat /\
  count is_hook_notification t = (3 * List.length n.(hooks))%nat.
Proof.
  intros Hcb H1 H2 H3 H4. unfold lookups_succeed in H1, H3.
  apply andb_prop in H1 as [L1 R1]. apply andb_prop in H3 as [L3 R3].
  rewrite run_deliver_cons.
  pose proof (processed_block_summary e1 (block_of r1 block.Normal) h1 n) as S1.
  destruct (run (handleNewBlockLocked e1 (block_of r1 block.Normal) h1) n)
    as [n1 t1].
  unfold processed, refreshes, firstBlock in S1. rewrite Hcb, L1, R1 in S1.
  destruct (S1 eq_refl) as (C1 & K1 & T1 & _ & _ & E1 & N1). clear S1.
  rewrite run_deliver_cons.
  pose proof (processed_block_summary e2 (block_of r2 block.Normal) h2 n1) as S2.
  destruct (run (handleNewBlockLocked e2 (block_of r2 block.Normal) h2) n1)
    as [n2 t2].
  unfold processed, refreshes, firstBlock in S2. rewrite C1, H2 in S2.
  destruct (S2 eq_refl) as (C2 & K2 & T2 & _ & _ & E2 & N2). clear S2.
  rewrite run_deliver_cons.
  pose proof (processed_block_summary e3 (block_of r3 block.EpochTransition)
                h3 n2) as S3.
  destruct (run (handleNewBlockLocked e3 (block_of r3 block.EpochTransition)
                   h3) n2) as [n3 t3].
  unfold processed, refreshes, firstBlock in S3. rewrite C2, L3, R3 in S3.
  destruct (S3 eq_refl) as (C3 & K3 & T3 & _ & _ & E3 & N3). clear S3.
  rewrite run_deliver_cons.
  pose proof (processed_block_summary e4 (block_of r4 block.Suspended)
                h4 n3) as S4.
  destruct (run (handleNewBlockLocked e4 (block_of r4 block.Suspended)
                   h4) n3) as [n4 t4].
  unfold processed, refreshes, firstBlock in S4. rewrite C3, H4 in S4.
  destruct (S4 eq_refl) as (C4 & K4 & T4 & _ & _ & E4 & N4). clear S4.
  rewrite run_deliver_nil.
  cbn [snd] in *. rewrite app_nil_r.
  rewrite !transitions_app, !count_app, T1, T2, T3, T4.
  rewrite N1, N2, N3, N4, E1, E2, E3, E4.
  cbn [transition_for block_of block.HeaderType_ block.Header_ app] in *.
  rewrite K3, K2, K1. repeat split; lia.
Qed.

(** C8, as stated, fails in its scenario: the hooks have no round-transition
    callback, so for the four blocks Normal (first), Normal,
    EpochTransition, Suspended a hook is notified three times, each time
    through its epoch-transition callback; the round transition of the
    second block goes to the committee group only. *)
Lemma scenario_hooks_see_three_epoch_transitions :
  let t := snd (run (deliver scenario_blocks) node_started) in
  filter is_hook_notification t =
    [ HookEpochTransition 7%nat (mkEpochSnapshot 3%N);
      HookEpochTransition 7%nat (mkEpochSnapshot 3%N);
      HookEpochTransition 7%nat (mkEpochSnapshot 3%N) ] /\
  List.length (filter is_hook_notification t) <> 4%nat /\
  transitions t =
    [TEpochTransition 10; TRoundTransition; TEpochTransition 12; TSuspend].
Proof. vm_compute. repeat split; discriminate. Qed.

(** C8 (amended): a block that is processed to the end produces its effects
    in this order: the metric, every hook's early callback, the effects of
    the dispatch on the header type (exactly one transition signalled to the
    group, and inside it neither a block callback nor a pool update), the
    pool's ProcessBlock, every hook's new-block callback.  The blocks
    Normal (first), Normal, EpochTransition, Suspended yield the transitions
    epoch transition (forced), round transition, epoch transition, suspend;
    of these the hooks are notified three times, always through their
    epoch-transition callback: the round transition is signalled to the
    group, not to the hooks, and the suspend reuses the epoch-transition
    callback. *)
Theorem handler_step_order_and_scenario :
  (forall env blk height n,
     processed env blk height n = true ->
     let '(n', t) := run (handleNewBlockLocked env blk height) n in
     let d := snd (run (dispatchHeaderType env blk (firstBlock n) height) n') in
     let bi := mkBlockInfo n'.(CurrentBlock) n'.(CurrentConsensusBlock)
                           n'.(CurrentEpoch) n'.(CurrentDescriptor) in
     t = MetricInc processedBlockCount
         :: map (fun h => HookNewBlockEarly h blk) n.(hooks)
         ++ d
         ++ TxPoolProcessBlock bi
         :: pool_log env bi
         ++ map (fun h => HookNewBlock h blk) n.(hooks) /\
     count is_dispatch d = 1%nat /\
     count is_HookNewBlockEarly d = 0%nat /\
     count is_TxPoolProcessBlock d = 0%nat /\
     count is_HookNewBlock d = 0%nat) /\
  (forall e1 e2 e3 e4 r1 r2 r3 r4 h1 h2 h3 h4 n,
     n.(CurrentBlock) = None ->
     lookups_succeed e1 h1 = true ->
     is_ok (e2.(GetLightBlock) h2) = true ->
     lookups_succeed e3 h3 = true ->
     is_ok (e4.(GetLightBlock) h4) = true ->
     let t := snd (run (deliver [ (e1, block_of r1 block.Normal, h1);
                                  (e2, block_of r2 block.Normal, h2);
                                  (e3, block_of r3 block.EpochTransition, h3);
                                  (e4, block_of r4 block.Suspended, h4) ]) n) in
     transitions t =
       [TEpochTransition h1; TRoundTransition; TEpochTransition h3; TSuspend] /\
     count is_HookEpochTransition t = (3 * List.length n.(hooks))%nat /\
     count is_hook_notification t = (3 * List.length n.(hooks))%nat).
Proof.
  split.
  - exact processed_block_order.
  - exact scenario_dispatch.
Qed.

Lemma handler_step_order_and_scenario_witness :
  let t := snd (run (deliver scenario_blocks) node_started) in
  transitions t =
    [TEpochTransition 10; TRoundTransition; TEpochTransition 12; TSuspend] /\
  count is_HookEpochTransition t = 3%nat /\
  count is_hook_notification t = 3%nat.
Proof.
  exact (proj2 handler_step_order_and_scenario
           env_ok env_ok env_ok env_ok 1%N 2%N 3%N 4%N 10 11 12 13
           node_started eq_refl eq_refl eq_refl eq_refl eq_refl).
Defined.

(** ** The worker *)

(** What the event loop needs to know about one handler call. *)
Lemma handleNewBlockLocked_frame env blk height n :
  let '(n', t) := run (handleNewBlockLocked env blk height) n in
  n'.(hooks) = n.(hooks) /\
  (n'.(CurrentDescriptor) = n.(CurrentDescriptor) \/
   exists ad, env.(GetRuntime) height = inl ad /\
              n'.(CurrentDescriptor) = Some ad) /\
  count is_CloseInitCh t = 0%nat /\
  count is_CloseQuitCh t = 0%nat.
Proof.
  unfold_handlers. cbn.
  destruct (CurrentBlock n) as [b|] eqn:Hb; cbn;
    by_header blk; by_lookups env height; counted;
    repeat split; solve [ left; reflexivity | right; eexists; split; reflexivity ].
Qed.

Lemma handleNewEventLocked_frame ev n :
  let '(n', t) := run (handleNewEventLocked ev) n in
  n' = n /\ count is_CloseInitCh t = 0%nat /\ count is_CloseQuitCh t = 0%nat /\
  count is_block_handled t = 0%nat.
Proof. unfold_handlers. cbn. hooks_done. counted. repeat split. Qed.

Lemma handleRuntimeHostEvent_frame ev n :
  let '(n', t) := run (handleRuntimeHostEvent ev) n in
  n' = n /\ count is_CloseInitCh t = 0%nat /\ count is_CloseQuitCh t = 0%nat /\
  count is_block_handled t = 0%nat.
Proof. unfold_handlers. cbn. hooks_done. counted. repeat split. Qed.

Section Fragments.
Variable p : Effect -> bool.
Variable k : nat.
Variable I : Node -> Prop.

Lemma wbounded_wreturn : wbounded p k wreturn.
Proof. intros n. cbn. rewrite count_nil. lia. Qed.

Lemma wbounded_wblocked : wbounded p k wblocked.
Proof. intros n. cbn. rewrite count_nil. lia. Qed.

Lemma wbounded_wemit e w : p e = false -> wbounded p k w -> wbounded p k (wemit e w).
Proof.
  intros He Hw n. specialize (Hw n). unfold wemit, wtrace in *.
  destruct (w n) as [[o n1] t]. cbn in *. rewrite count_cons, He. exact Hw.
Qed.

Lemma wbounded_defer d w : p d = false -> wbounded p k w -> wbounded p k (defer d w).
Proof.
  intros Hd Hw n. specialize (Hw n). unfold defer, wtrace in *.
  destruct (w n) as [[[|] n1] t]; cbn in *; [|exact Hw].
  rewrite count_app, count_cons, Hd, count_nil. lia.
Qed.

Lemma wbounded_try r msg w :
  p (Log msg) = false -> wbounded p k w -> wbounded p k (try_ r msg w).
Proof.
  intros Hl Hw. destruct r; cbn; [|exact Hw].
  apply wbounded_wemit; [exact Hl|apply wbounded_wreturn].
Qed.

Lemma wbounded_wdo m w :
  (forall n, count p (snd (run m n)) = 0%nat) ->
  wbounded p k w -> wbounded p k (wdo m w).
Proof.
  intros Hm Hw n. specialize (Hm n). unfold wdo, wtrace.
  destruct (run m n) as [n1 t1]. specialize (Hw n1). unfold wtrace in Hw.
  destruct (w n1) as [[o n2] t2]. cbn in *. rewrite count_app, Hm.
  exact Hw.
Qed.

Lemma wbounded_wait_hooks hs ready w :
  (forall msg, p (Log msg) = false) ->
  wbounded p k w -> wbounded p k (wait_hooks hs ready w).
Proof.
  intros Hl Hw. induction hs as [|h hs IH]; cbn; [exact Hw|].
  destruct (ready h); [exact IH| |apply wbounded_wblocked].
  apply wbounded_wemit; [apply Hl|apply wbounded_wreturn].
Qed.

Lemma wbounded_wait_keymanager su rt w :
  (forall msg, p (Log msg) = false) -> wbounded p k w ->
  wbounded p k (wait_keymanager su rt w).
Proof.
  intros Hl Hw. unfold wait_keymanager.
  destruct (RT_KeyManager rt); [|exact Hw].
  apply wbounded_wemit; [apply Hl|].
  destruct (su_keymanagerClient_New su).
  - apply wbounded_wdo; [intros ?; reflexivity|].
    apply wbounded_wemit; [apply Hl|apply wbounded_wreturn].
  - apply wbounded_wdo; [intros ?; reflexivity|].
    destruct (su_KeyManagerClient_Initialized su);
      apply wbounded_wemit; try apply Hl; [apply wbounded_wreturn|exact Hw].
Qed.

Lemma wkeeps_wreturn : wkeeps I wreturn.
Proof. intros n Hn. exact Hn. Qed.

Lemma wkeeps_wblocked : wkeeps I wblocked.
Proof. intros n Hn. exact Hn. Qed.

Lemma wkeeps_wemit e w : wkeeps I w -> wkeeps I (wemit e w).
Proof.
  intros Hw n Hn. specialize (Hw n Hn). unfold wemit, wnode in *.
  destruct (w n) as [[o n1] t]. exact Hw.
Qed.

Lemma wkeeps_defer d w : wkeeps I w -> wkeeps I (defer d w).
Proof.
  intros Hw n Hn. specialize (Hw n Hn). unfold defer, wnode in *.
  destruct (w n) as [[[|] n1] t]; exact Hw.
Qed.

Lemma wkeeps_try r msg w : wkeeps I w -> wkeeps I (try_ r msg w).
Proof.
  intros Hw. destruct r; cbn; [|exact Hw].
  apply wkeeps_wemit, wkeeps_wreturn.
Qed.

Lemma wkeeps_wdo m w :
  (forall n, I n -> I (fst (run m n))) -> wkeeps I w -> wkeeps I (wdo m w).
Proof.
  intros Hm Hw n Hn. specialize (Hm n Hn). unfold wdo, wnode.
  destruct (run m n) as [n1 t1]. specialize (Hw n1 Hm). unfold wnode in Hw.
  destruct (w n1) as [[o n2] t2]. exact Hw.
Qed.

Lemma wkeeps_wait_hooks hs ready w :
  wkeeps I w -> wkeeps I (wait_hooks hs ready w).
Proof.
  intros Hw. induction hs as [|h hs IH]; cbn; [exact Hw|].
  destruct (ready h); [exact IH| |apply wkeeps_wblocked].
  apply wkeeps_wemit, wkeeps_wreturn.
Qed.

Lemma wkeeps_wait_keymanager su rt w :
  (forall b n, I n -> I (set_KeyManagerClient b n)) ->
  wkeeps I w -> wkeeps I (wait_keymanager su rt w).
Proof.
  intros Hkm Hw. unfold wait_keymanager.
  destruct (RT_KeyManager rt); [|exact Hw].
  apply wkeeps_wemit.
  destruct (su_keymanagerClient_New su).
  - apply wkeeps_wdo; [exact (Hkm false)|].
    apply wkeeps_wemit, wkeeps_wreturn.
  - apply wkeeps_wdo; [exact (Hkm true)|].
    destruct (su_KeyManagerClient_Initialized su);
      apply wkeeps_wemit; [apply wkeeps_wreturn|exact Hw].
Qed.

(** The startup after the descriptor has been stored adds to the loop only
    logs and service calls, and touches the node only through the
    key-manager client. *)
Lemma worker_with_descriptor_bounded su rt sched :
  (forall msg, p (Log msg) = false) ->
  (forall e, is_service_effect e = true -> p e = false) ->
  wbounded p k (worker_loop sched false) ->
  wbounded p k (worker_with_descriptor su rt sched).
Proof.
  intros Hl Hs Hloop. unfold worker_with_descriptor.
  apply wbounded_wait_keymanager; [exact Hl|].
  repeat first
    [ exact Hloop
    | apply wbounded_try; [apply Hl|]
    | apply wbounded_defer; [apply Hs; reflexivity|]
    | apply wbounded_wemit; [apply Hs; reflexivity|] ].
Qed.

Lemma worker_with_descriptor_keeps su rt sched :
  (forall b n, I n -> I (set_KeyManagerClient b n)) ->
  wkeeps I (worker_loop sched false) ->
  wkeeps I (worker_with_descriptor su rt sched).
Proof.
  intros Hkm Hloop. unfold worker_with_descriptor.
  apply wkeeps_wait_keymanager; [exact Hkm|].
  repeat first
    [ exact Hloop
    | apply wkeeps_try
    | apply wkeeps_defer
    | apply wkeeps_wemit ].
Qed.

Lemma worker_body_bounded su sched :
  (forall msg, p (Log msg) = false) ->
  (forall e, is_service_effect e = true -> p e = false) ->
  wbounded p k (worker_loop sched false) ->
  wbounded p k (worker_body su sched).
Proof.
  intros Hl Hs Hloop. unfold worker_body.
  apply wbounded_wemit; [apply Hl|].
  destruct (su_Synced su); [apply wbounded_wreturn|].
  apply wbounded_wemit; [apply Hl|].
  destruct (su_ActiveDescriptor su) as [rt|e].
  - apply wbounded_wemit; [apply Hl|].
    apply wbounded_wdo; [intros ?; reflexivity|].
    apply worker_with_descriptor_bounded; assumption.
  - apply wbounded_wemit; [apply Hl|apply wbounded_wreturn].
Qed.
End Fragments.

Lemma worker_loop_closes_initCh_at_most_once sched :
  forall initialized : bool,
    wbounded is_CloseInitCh (if initialized then 0 else 1)%nat
             (worker_loop sched initialized).
Proof.
  induction sched as [|s sched IH]; intros initialized.
  - apply wbounded_wblocked.
  - destruct s as [|[h|]|blk height env ready|ev|ev]; cbn [worker_loop].
    + apply wbounded_wemit; [reflexivity|apply wbounded_wreturn].
    + apply wbounded_wdo; [intros ?; reflexivity|apply IH].
    + apply wbounded_wreturn.
    + assert (Hrec : wbounded is_CloseInitCh 0
                       (wdo (handleNewBlockLocked env blk height)
                            (worker_loop sched true))).
      { apply wbounded_wdo; [|apply (IH true)].
        intros n. pose proof (handleNewBlockLocked_frame env blk height n) as F.
        destruct (run (handleNewBlockLocked env blk height) n) as [n1 t1].
        apply F. }
      destruct initialized; [exact Hrec|].
      intros n. unfold wemit at 1 2 3, wtrace.
      pose proof (wbounded_wait_hooks is_CloseInitCh 0 (hooks n) ready _
                    (fun _ => eq_refl)
                    (wbounded_wemit is_CloseInitCh 0
                       (Log "all child workers are initialized") _
                       eq_refl Hrec) n) as Hw.
      unfold wtrace in Hw.
      destruct (wait_hooks _ _ _ n) as [[o n2] t2].
      cbn in *. rewrite !count_cons. cbn. lia.
    + apply wbounded_wdo; [|apply IH].
      intros n. pose proof (handleNewEventLocked_frame ev n) as F.
      destruct (run (handleNewEventLocked ev) n) as [n1 t1]. apply F.
    + apply wbounded_wdo; [|apply IH].
      intros n. pose proof (handleRuntimeHostEvent_frame ev n) as F.
      destruct (run (handleRuntimeHostEvent ev) n) as [n1 t1]. apply F.
Qed.


Lemma worker_loop_keeps_descriptor sched :
  forall initialized : bool,
    wkeeps (fun n => n.(CurrentDescriptor) <> None) (worker_loop sched initialized).
Proof.
  induction sched as [|s sched IH]; intros initialized.
  - apply wkeeps_wblocked.
  - destruct s as [|[h|]|blk height env ready|ev|ev]; cbn [worker_loop].
    + apply wkeeps_wemit, wkeeps_wreturn.
    + apply wkeeps_wdo; [intros n Hn; exact Hn|apply IH].
    + apply wkeeps_wreturn.
    + assert (Hrec : wkeeps (fun n => n.(CurrentDescriptor) <> None)
                       (wdo (handleNewBlockLocked env blk height)
                            (worker_loop sched true))).
      { apply wkeeps_wdo; [|apply (IH true)].
        intros n Hn.
        pose proof (handleNewBlockLocked_frame env blk height n) as F.
        destruct (run (handleNewBlockLocked env blk height) n) as [n1 t1].
        destruct F as (_ & [F|(ad & _ & F)] & _); cbn; rewrite F;
          [exact Hn|discriminate]. }
      destruct initialized; [exact Hrec|].
      do 3 apply wkeeps_wemit.
      intros n Hn. apply wkeeps_wait_hooks; [|exact Hn].
      apply wkeeps_wemit. exact Hrec.
    + apply wkeeps_wdo; [|apply IH].
      intros n Hn. pose proof (handleNewEventLocked_frame ev n) as F.
      destruct (run (handleNewEventLocked ev) n) as [n1 t1].
      destruct F as (-> & _). exact Hn.
    + apply wkeeps_wdo; [|apply IH].
      intros n Hn. pose proof (handleRuntimeHostEvent_frame ev n) as F.
      destruct (run (handleRuntimeHostEvent ev) n) as [n1 t1].
      destruct F as (-> & _). exact Hn.
Qed.

Lemma worker_loop_without_block sched :
  forallb (fun s => negb (is_SelBlock s)) sched = true ->
  forall initialized, wbounded is_CloseInitCh 0 (worker_loop sched initialized).
Proof.
  induction sched as [|s sched IH]; intros Hs initialized.
  - apply wbounded_wblocked.
  - cbn in Hs. apply andb_prop in Hs as [Hs Hrest].
    destruct s as [|[h|]|blk height env ready|ev|ev]; cbn [worker_loop];
      try discriminate Hs.
    + apply wbounded_wemit; [reflexivity|apply wbounded_wreturn].
    + apply wbounded_wdo; [intros ?; reflexivity|apply IH, Hrest].
    + apply wbounded_wreturn.
    + apply wbounded_wdo; [|apply IH, Hrest].
      intros n. pose proof (handleNewEventLocked_frame ev n) as F.
      destruct (run (handleNewEventLocked ev) n) as [n1 t1]. apply F.
    + apply wbounded_wdo; [|apply IH, Hrest].
      intros n. pose proof (handleRuntimeHostEvent_frame ev n) as F.
      destruct (run (handleRuntimeHostEvent ev) n) as [n1 t1]. apply F.
Qed.

(** Before the first runtime block the loop only records heights and
    forwards events. *)
Lemma worker_loop_quiet_prefix pre s :
  forallb quiet pre = true ->
  forall initialized n,
  exists n1 t1,
    n1.(hooks) = n.(hooks) /\
    count is_CloseInitCh t1 = 0%nat /\
    count is_block_handled t1 = 0%nat /\
    worker_loop (pre ++ s) initialized n =
      match worker_loop s initialized n1 with
      | (o, n2, t2) => (o, n2, t1 ++ t2)
      end.
Proof.
  induction pre as [|a pre IH]; intros Hq initialized n.
  - exists n, []. repeat split.
    cbn. destruct (worker_loop s initialized n) as [[o n2] t2]. reflexivity.
  - cbn in Hq. apply andb_prop in Hq as [Ha Hq].
    destruct a as [|[h|]|blk height env ready|ev|ev]; try discriminate Ha;
      cbn [app worker_loop]; unfold wdo.
    + destruct (IH Hq initialized (set_Height h n)) as (n1 & t1 & Hh & Hi & Hb & E).
      exists n1, t1. repeat split; try assumption.
      cbn. rewrite E. destruct (worker_loop s initialized n1) as [[o n2] t2].
      reflexivity.
    + pose proof (handleNewEventLocked_frame ev n) as F.
      destruct (run (handleNewEventLocked ev) n) as [n' t'].
      destruct F as (-> & Fi & _ & Fb).
      destruct (IH Hq initialized n) as (n1 & t1 & Hh & Hi & Hb & E).
      exists n1, (t' ++ t1). rewrite !count_app, Fi, Fb, Hi, Hb.
      repeat split; try assumption.
      rewrite E. destruct (worker_loop s initialized n1) as [[o n2] t2].
      rewrite app_assoc. reflexivity.
    + pose proof (handleRuntimeHostEvent_frame ev n) as F.
      destruct (run (handleRuntimeHostEvent ev) n) as [n' t'].
      destruct F as (-> & Fi & _ & Fb).
      destruct (IH Hq initialized n) as (n1 & t1 & Hh & Hi & Hb & E).
      exists n1, (t' ++ t1). rewrite !count_app, Fi, Fb, Hi, Hb.
      repeat split; try assumption.
      rewrite E. destruct (worker_loop s initialized n1) as [[o n2] t2].
      rewrite app_assoc. reflexivity.
Qed.

(** A wait that some hook does not let through runs nothing of what
    follows it. *)
Lemma wait_hooks_not_ready p hs ready w n :
  (forall msg, p (Log msg) = false) ->
  forallb (fun h => is_HookInitialized (ready h)) hs = false ->
  count p (wtrace (wait_hooks hs ready w n)) = 0%nat.
Proof.
  intros Hl. induction hs as [|h hs IH]; cbn; [discriminate|].
  destruct (ready h); cbn; intros Hr.
  - apply IH, Hr.
  - rewrite count_cons, Hl. reflexivity.
  - reflexivity.
Qed.

Lemma first_block_closes_initCh pre blk height env ready rest n :
  forallb quiet pre = true ->
  let t := wtrace (worker_loop (pre ++ SelBlock blk height env ready :: rest)
                               false n) in
  count is_CloseInitCh t = 1%nat /\
  (forallb (fun h => is_HookInitialized (ready h)) n.(hooks) = false ->
   count is_block_handled t = 0%nat).
Proof.
  intros Hq.
  destruct (worker_loop_quiet_prefix pre (SelBlock blk height env ready :: rest)
              Hq false n) as (n1 & t1 & Hh & Hi & Hb & E).
  set (received := wemit (Log "all child workers are initialized")
                     (wdo (handleNewBlockLocked env blk height)
                          (worker_loop rest true))).
  assert (Et : wtrace (worker_loop (pre ++ SelBlock blk height env ready :: rest)
                                   false n) =
               t1 ++ Log "common worker is initialized" :: CloseInitCh
                  :: Log "waiting for child worker initialization"
                  :: wtrace (wait_hooks (hooks n1) ready received n1)).
  { rewrite E. cbn [worker_loop]. unfold wemit at 1 2 3, wtrace.
    fold received.
    destruct (wait_hooks (hooks n1) ready received n1) as [[o n2] t2].
    reflexivity. }
  cbv zeta. rewrite Et. clear Et E.
  assert (Hrec : wbounded is_CloseInitCh 0 received).
  { apply wbounded_wemit; [reflexivity|].
    apply wbounded_wdo; [|apply (worker_loop_closes_initCh_at_most_once rest true)].
    intros m. pose proof (handleNewBlockLocked_frame env blk height m) as F.
    destruct (run (handleNewBlockLocked env blk height) m) as [m1 u1]. apply F. }
  pose proof (wbounded_wait_hooks is_CloseInitCh 0 (hooks n1) ready received
                (fun _ => eq_refl) Hrec n1) as Hw.
  pose proof (wait_hooks_not_ready is_block_handled (hooks n1) ready received n1
                (fun _ => eq_refl)) as Hn.
  rewrite !count_app, !count_cons, Hi, Hb. cbn [is_CloseInitCh is_block_handled].
  split; [lia|]. intros Hr. rewrite <- Hh in Hr. rewrite (Hn Hr). reflexivity.
Qed.

Lemma service_effect_not_CloseInitCh e :
  is_service_effect e = true -> is_CloseInitCh e = false.
Proof. destruct e; cbn; intros H; try reflexivity; discriminate H. Qed.


Lemma worker_closes_initCh_at_most_once su sched n :
  (count is_CloseInitCh (wtrace (worker su sched n)) <= 1)%nat.
Proof.
  revert n. change (wbounded is_CloseInitCh 1 (worker su sched)).
  unfold worker.
  apply wbounded_wemit; [reflexivity|].
  do 2 (apply wbounded_defer; [reflexivity|]).
  apply worker_body_bounded;
    [reflexivity|exact service_effect_not_CloseInitCh|].
  exact (worker_loop_closes_initCh_at_most_once sched false).
Qed.

(** C3, as stated, fails: with one registered hook that never reports
    readiness and no stop signal, the first runtime block still closes
    initCh; the worker then sits in the wait and the block is not handled. *)
Lemma initCh_closed_while_hook_not_ready :
  let ready := fun _ : HookId => HookNever in
  let n := AddHooks 7%nat NewNode in
  let r := worker su_ok [SelBlock (block_of 1 block.Normal) 10 env_ok ready] n in
  n.(hooks) = [7%nat] /\ ready 7%nat = HookNever /\
  woutcome r = Blocked /\
  count is_CloseInitCh (wtrace r) = 1%nat /\
  count is_block_handled (wtrace r) = 0%nat.
Proof. vm_compute. repeat split. Qed.

(** C3 (amended): initCh is closed at most once in a run of the worker; it
    is not closed while no runtime block has been received; it is closed
    when the event loop receives its first runtime block, whatever the
    hooks' readiness, that is before the worker waits for the hooks.  What
    waits for every hook's readiness is the handling of the block: if some
    hook is not ready (the stop signal preempts the wait, or the wait never
    ends) no block is handled in that run. *)
Theorem initCh_closed_on_first_block :
  (forall su sched n,
     (count is_CloseInitCh (wtrace (worker su sched n)) <= 1)%nat) /\
  (forall sched n,
     forallb (fun s => negb (is_SelBlock s)) sched = true ->
     count is_CloseInitCh (wtrace (worker_loop sched false n)) = 0%nat) /\
  (forall pre blk height env ready rest n,
     forallb quiet pre = true ->
     let t := wtrace (worker_loop (pre ++ SelBlock blk height env ready :: rest)
                                  false n) in
     count is_CloseInitCh t = 1%nat /\
     (forallb (fun h => is_HookInitialized (ready h)) n.(hooks) = false ->
      count is_block_handled t = 0%nat)).
Proof.
  split; [exact worker_closes_initCh_at_most_once|]. split.
  - intros sched n Hs.
    pose proof (worker_loop_without_block sched Hs false n). lia.
  - exact first_block_closes_initCh.
Qed.

Lemma initCh_closed_on_first_block_witness :
  let t := wtrace (worker_loop
                     ([SelEvent 5%N] ++
                      SelBlock (block_of 1 block.Normal) 10 env_ok
                               (fun _ => HookStopped) :: [])
                     false node_started) in
  count is_CloseInitCh t = 1%nat /\ count is_block_handled t = 0%nat.
Proof.
  pose proof (proj2 (proj2 initCh_closed_on_first_block)
                [SelEvent 5%N] (block_of 1 block.Normal) 10 env_ok
                (fun _ => HookStopped) [] node_started eq_refl) as [H1 H2].
  split; [exact H1|exact (H2 eq_refl)].
Defined.

(** ** Shutdown *)






(** ** The descriptor *)

Lemma worker_sets_descriptor su sched n rt (I : Node -> Prop) :
  su.(su_Synced) = Synced ->
  su.(su_ActiveDescriptor) = inl rt ->
  (forall b m, I m -> I (set_KeyManagerClient b m)) ->
  wkeeps I (worker_loop sched false) ->
  I (set_CurrentDescriptor (Some rt) n) ->
  I (wnode (worker su sched n)).
Proof.
  intros Hs Ha Hkm Hloop Hn.
  pose proof (worker_with_descriptor_keeps I su rt sched Hkm Hloop
                (set_CurrentDescriptor (Some rt) n) Hn) as H.
  unfold worker, worker_body. rewrite Hs, Ha.
  unfold wemit, defer, wdo, run, modify, wnode in *.
  destruct (worker_with_descriptor su rt sched
              (set_CurrentDescriptor (Some rt) n)) as [[[|] n1] t];
    exact H.
Qed.

(** C10: once the worker is past the active-descriptor wait,
    CurrentDescriptor is set after every number of loop iterations; at the
    start of the loop it is the active descriptor; and a handler call either
    keeps it or replaces it by the descriptor just fetched. *)
Theorem CurrentDescriptor_stays_set :
  (forall su sched k n,
     past_descriptor_wait su ->
     (wnode (worker su (firstn k sched) n)).(CurrentDescriptor) <> None) /\
  (forall su n rt,
     su.(su_Synced) = Synced -> su.(su_ActiveDescriptor) = inl rt ->
     (wnode (worker su [] n)).(CurrentDescriptor) = Some rt) /\
  (forall env blk height n,
     let n' := fst (run (handleNewBlockLocked env blk height) n) in
     n'.(CurrentDescriptor) = n.(CurrentDescriptor) \/
     exists ad, env.(GetRuntime) height = inl ad /\
                n'.(CurrentDescriptor) = Some ad).
Proof.
  split; [|split].
  - intros su sched k n (Hs & rt & Ha).
    apply (worker_sets_descriptor su (firstn k sched) n rt
             (fun m => m.(CurrentDescriptor) <> None) Hs Ha).
    + intros b m Hm. exact Hm.
    + apply worker_loop_keeps_descriptor.
    + discriminate.
  - intros su n rt Hs Ha.
    apply (worker_sets_descriptor su [] n rt
             (fun m => m.(CurrentDescriptor) = Some rt) Hs Ha).
    + intros b m Hm. exact Hm.
    + apply wkeeps_wblocked.
    + reflexivity.
  - intros env blk height n.
    pose proof (handleNewBlockLocked_frame env blk height n) as F.
    destruct (run (handleNewBlockLocked env blk height) n) as [n1 t1].
    apply F.
Qed.

Lemma CurrentDescriptor_stays_set_witness :
  (wnode (worker su_ok
            (firstn 2 [ SelBlock (block_of 1 block.Normal) 10 env_suspended
                                 (fun _ => HookInitialized);
                        SelBlock (block_of 2 block.EpochTransition) 11
                                 env_suspended (fun _ => HookInitialized);
                        SelStop ])
            (AddHooks 7%nat NewNode))).(CurrentDescriptor) <> None.
Proof.
  apply (proj1 CurrentDescriptor_stays_set).
  split; [reflexivity|]. exists (mkRuntime 1 None). reflexivity.
Defined.

(** ** The scheduler facade *)

Lemma Error_eqb_eq a : forall b, Error_eqb a b = true <-> a = b.
Proof.
  induction a as [| | |s|s a IH]; intros [| | |s'|s' b]; cbn;
    try (split; [discriminate|congruence]); try (split; reflexivity).
  - rewrite String.eqb_eq. split; congruence.
  - rewrite andb_true_iff, String.eqb_eq, IH. split; [intros [-> ->]|intros [= -> ->]]; auto.
Qed.

Section Facade.
Context {P : Type} `{TxPool P}.

Lemma QueueTx_outcome (tx : CheckedTransaction) (s : scheduler P) :
  let '(r, s', _) := QueueTx tx s in
  s'.(txPool) = snd (Add tx s.(txPool)) /\
  s'.(maxTxPoolSize) = s.(maxTxPoolSize) /\
  (fst (Add tx s.(txPool)) = None -> r = None) /\
  (fst (Add tx s.(txPool)) = Some ErrCallAlreadyExists -> r = None) /\
  (forall err, fst (Add tx s.(txPool)) = Some err ->
               err <> ErrCallAlreadyExists -> r = Some err).
Proof.
  unfold QueueTx. destruct (Add tx (txPool s)) as [[err|] p]; cbn.
  - destruct (Error_eqb err ErrCallAlreadyExists) eqn:E; cbn.
    + apply Error_eqb_eq in E. subst err.
      repeat split; try discriminate. intros err [= <-] Hne. congruence.
    + repeat split; try discriminate.
      * intros [= ->]. discriminate E.
      * intros err' [= <-] _. reflexivity.
  - repeat split; discriminate.
Qed.
End Facade.

Lemma pool_Add_duplicate tx p :
  priorityqueue.pool_IsQueued tx.(tx_Hash) p = true ->
  priorityqueue.pool_Add tx p = (Some ErrCallAlreadyExists, p).
Proof. intros H. unfold priorityqueue.pool_Add. rewrite H. reflexivity. Qed.

(** C6: at the facade a pool answer of ErrCallAlreadyExists becomes
    success, just like an admission, and every other pool error comes back
    as it is (for any pool behind the facade).  With the priority-queue
    pool, queueing a transaction whose identifier is already queued is such
    a duplicate: the facade reports success and the scheduler, so also the
    pool size, is unchanged. *)
Theorem QueueTx_duplicate_is_success :
  (forall (P : Type) (pool : TxPool P) (tx : CheckedTransaction)
          (s : scheduler P),
     let '(r, s', _) := QueueTx tx s in
     s'.(txPool) = snd (Add tx s.(txPool)) /\
     (fst (Add tx s.(txPool)) = None -> r = None) /\
     (fst (Add tx s.(txPool)) = Some ErrCallAlreadyExists -> r = None) /\
     (forall err, fst (Add tx s.(txPool)) = Some err ->
                  err <> ErrCallAlreadyExists -> r = Some err)) /\
  (forall (tx : CheckedTransaction) (s : scheduler priorityqueue.Pool),
     scheduler_IsQueued tx.(tx_Hash) s = true ->
     let '(r, s', _) := QueueTx tx s in
     r = None /\ s' = s /\ UnscheduledSize s' = UnscheduledSize s).
Proof.
  split.
  - intros P pool tx s. pose proof (QueueTx_outcome tx s) as H.
    destruct (QueueTx tx s) as [[r s'] logs].
    destruct H as (H1 & _ & H2 & H3 & H4). repeat split; assumption.
  - intros tx [p m] Hq. unfold scheduler_IsQueued in Hq. cbn in Hq.
    unfold QueueTx, UnscheduledSize, with_txPool. cbn.
    rewrite (pool_Add_duplicate tx p Hq). cbn. repeat split.
Qed.

Lemma QueueTx_duplicate_is_success_witness :
  UnscheduledSize scheduler_with_A = 1%N /\
  fst (fst (QueueTx tx_A scheduler_with_A)) = None /\
  UnscheduledSize (snd (fst (QueueTx tx_A scheduler_with_A))) = 1%N.
Proof.
  pose proof (proj2 QueueTx_duplicate_is_success tx_A scheduler_with_A eq_refl)
    as H.
  destruct (QueueTx tx_A scheduler_with_A) as [[r s'] logs].
  destruct H as (-> & -> & _). repeat split.
Defined.

(** The specification's scenario, end to end. *)
Example pool_scenario :
  let s1 := snd (fst (QueueTx tx_A scheduler_empty)) in
  let s2 := snd (fst (QueueTx tx_A s1)) in
  let s3 := snd (fst (QueueTx tx_B s2)) in
  let s4 := snd (fst (QueueTx tx_C s3)) in
  UnscheduledSize s1 = 1%N /\
  fst (fst (QueueTx tx_A s1)) = None /\ UnscheduledSize s2 = 1%N /\
  UnscheduledSize s3 = 2%N /\
  fst (fst (QueueTx tx_C s3)) = Some ErrFull /\ UnscheduledSize s4 = 2%N.
Proof. vm_compute. repeat split. Qed.

(** * Beyond the claims *)

(** ** Start *)

Lemma Error_eqb_refl e : Error_eqb e e = true.
Proof. apply Error_eqb_eq. reflexivity. Qed.

Lemma errors_Is_refl e : errors_Is e e = true.
Proof. destruct e; cbn; rewrite ?String.eqb_refl, ?Error_eqb_refl; reflexivity. Qed.

Lemma errors_Is_wrap msg e target :
  errors_Is e target = true -> errors_Is (ErrWrap msg e) target = true.
Proof. intros H. cbn [errors_Is]. rewrite H. apply orb_true_r. Qed.

(** X1: [Start] spawns the worker exactly when it returns nil, which is
    exactly when both the group and the pool started; the pool is not
    started after a group failure; and the error returned wraps its cause,
    so that [errors.Is] finds in it whatever it finds in the cause. *)
Theorem Start_spawns_worker_iff_success g p :
  let '(r, t) := Start g p in
  (r = None <-> In GoWorker t) /\
  (r = None <-> g = None /\ p = None) /\
  (g <> None -> ~ In TxPoolStart t) /\
  (forall cause target,
     (g = Some cause \/ g = None /\ p = Some cause) ->
     errors_Is cause target = true ->
     exists err, r = Some err /\ errors_Is err target = true).
Proof.
  destruct g as [ge|], p as [pe|]; cbn; (split; [|split; [|split]]);
    try solve [intuition (try discriminate; congruence)];
    intros cause target [H|[H1 H2]] Ht; try discriminate;
    try (injection H as <-); try (injection H2 as <-);
    eexists; (split; [reflexivity|apply errors_Is_wrap, Ht]).
Qed.

(** ** Hooks and events *)

Lemma hooks_after_AddHooks hs : forall n,
  (fold_left (fun m h => AddHooks h m) hs n).(hooks) = n.(hooks) ++ hs.
Proof.
  induction hs as [|h hs IH]; intros n; cbn.
  - rewrite app_nil_r. reflexivity.
  - rewrite IH. cbn. rewrite <- app_assoc. reflexivity.
Qed.

(** X2: hooks are notified in the order of their registration: after
    [AddHooks] of h1 .. hk, a roothash event bumps the processed-event
    counter once and reaches every hook registered before and then h1 .. hk,
    each once; a hosted-runtime event reaches the same hooks in the same
    order and bumps no counter.  Neither changes the node. *)
Theorem events_reach_hooks_in_registration_order n hs ev hev :
  let n' := fold_left (fun m h => AddHooks h m) hs n in
  run (handleNewEventLocked ev) n' =
    (n', MetricInc processedEventCount
         :: map (fun h => HookNewEvent h ev) (n.(hooks) ++ hs)) /\
  run (handleRuntimeHostEvent hev) n' =
    (n', map (fun h => HookRuntimeHostEvent h hev) (n.(hooks) ++ hs)).
Proof.
  cbv zeta. unfold_handlers. cbn. hooks_done.
  rewrite hooks_after_AddHooks. split; reflexivity.
Qed.

(** ** More on the per-block handler *)

Lemma forallb_map_all (p : Effect -> bool) (f : HookId -> Effect) hs :
  (forall h, p (f h) = true) -> forallb p (map f hs) = true.
Proof.
  intros Hf. induction hs as [|h hs IH]; [reflexivity|].
  cbn. rewrite Hf, IH. reflexivity.
Qed.

Lemma filter_map_all (p : Effect -> bool) (f : HookId -> Effect) hs :
  (forall h, p (f h) = true) -> filter p (map f hs) = map f hs.
Proof.
  intros Hf. induction hs as [|h hs IH]; [reflexivity|].
  cbn. rewrite Hf, IH. reflexivity.
Qed.

Lemma count_of_forallb (p q : Effect -> bool) t :
  (forall e, q e = true -> p e = false) ->
  forallb q t = true -> count p t = 0%nat.
Proof.
  intros Hpq. induction t as [|e t IH]; [reflexivity|].
  cbn [forallb]. intros H. apply andb_prop in H as [He Ht].
  rewrite count_cons, (Hpq e He), (IH Ht). reflexivity.
Qed.

Ltac all_effects :=
  repeat (rewrite ?forallb_app, ?forallb_map_all by reflexivity; cbn).

(** What a handler call leaves alone, and the kind of its effects. *)
Lemma handleNewBlockLocked_rest env blk height n :
  let '(n', t) := run (handleNewBlockLocked env blk height) n in
  forallb is_handler_effect t = true /\
  n'.(Height) = n.(Height) /\
  n'.(stopOnce) = n.(stopOnce) /\
  n'.(KeyManagerClient) = n.(KeyManagerClient) /\
  (block_consistent n -> block_consistent n') /\
  (forall lb, env.(GetLightBlock) height = inl lb ->
     n'.(CurrentBlock) = Some blk /\
     n'.(CurrentBlockHeight) = height /\
     n'.(CurrentConsensusBlock) = Some lb) /\
  (forall err, env.(GetLightBlock) height = inr err -> n' = n).
Proof.
  unfold block_consistent. unfold_handlers. cbn.
  destruct (CurrentBlock n) as [b|] eqn:Hb; cbn;
    by_header blk; by_lookups env height; all_effects;
    repeat split; try reflexivity; try discriminate; intros;
    repeat match goal with
      | H : inl _ = inl _ |- _ => injection H as <-
      | H : inl _ = inr _ |- _ => discriminate H
      | H : inr _ = inl _ |- _ => discriminate H
      end;
    rewrite ?Hb; cbn; try reflexivity; try discriminate; try assumption.
Qed.

(** X3: the counters follow the handler: the processed-block counter is
    bumped once by every call, also for a block that is dropped; the
    epoch-transition counter once per epoch transition signalled to the
    group (a suspend does not count); the failed-round counter exactly for
    a block of type RoundFailed that is not the first one and whose light
    block was fetched. *)
Theorem handler_counters env blk height n :
  let t := snd (run (handleNewBlockLocked env blk height) n) in
  count is_block_handled t = 1%nat /\
  count is_epochTransitionCount t = count is_GroupEpochTransition t /\
  (count is_failedRoundCount t <= 1)%nat /\
  (count is_failedRoundCount t = 1%nat <->
   blk.(block.Header_).(block.HeaderType_) = block.RoundFailed /\
   firstBlock n = false /\
   is_ok (env.(GetLightBlock) height) = true).
Proof.
  unfold firstBlock. unfold_handlers. cbn.
  destruct (CurrentBlock n) as [b|] eqn:Hb; cbn;
    by_header blk; by_lookups env height; counted;
    repeat split; try reflexivity; try lia; try discriminate;
    try (intros (? & ? & ?); discriminate).
Qed.

Ltac unlogged :=
  repeat (rewrite ?filter_app, ?filter_map_all by reflexivity; cbn).

(** X4: a failure of the group's epoch transition or of the pool's block
    update is logged and nothing more: with any other answers of these two
    the handler leaves the same node and produces the same effects apart
    from log lines; in particular the hooks get the same callbacks. *)
Theorem group_and_pool_errors_only_logged env ge pb blk height n :
  let r := run (handleNewBlockLocked env blk height) n in
  let r' := run (handleNewBlockLocked (with_answers env ge pb) blk height) n in
  fst r' = fst r /\
  filter (fun e => negb (is_Log e)) (snd r') =
  filter (fun e => negb (is_Log e)) (snd r).
Proof.
  unfold with_answers. unfold_handlers. cbn.
  destruct (CurrentBlock n) as [b|] eqn:Hb; cbn;
    by_header blk;
    try (destruct (GetLightBlock env height) as [?lb|?e] eqn:?HLB; cbn; hooks_done);
    try (destruct (GetRuntime env height) as [?ad|?e] eqn:?HRT; cbn; hooks_done);
    try match goal with
      | |- context [errors_Is ?e ErrNoSuchRuntime] =>
          destruct (errors_Is e ErrNoSuchRuntime) eqn:?HIS; cbn; hooks_done
      end;
    try match goal with
      | |- context [GetEpoch env height] =>
          destruct (GetEpoch env height) as [?ep [?e|]] eqn:?HEP; cbn; hooks_done
      end;
    try match goal with
      | |- context [Group_EpochTransition env height] =>
          destruct (Group_EpochTransition env height), (ge height);
          cbn; hooks_done
      end;
    try match goal with
      | |- context [TxPool_ProcessBlock env ?bi] =>
          destruct (TxPool_ProcessBlock env bi), (pb bi); cbn; hooks_done
      end;
    (split; [reflexivity|]); unlogged; reflexivity.
Qed.

(** ** More on the worker *)

Lemma handleNewEventLocked_run ev n :
  run (handleNewEventLocked ev) n =
  (n, MetricInc processedEventCount :: map (fun h => HookNewEvent h ev) n.(hooks)).
Proof. unfold_handlers. cbn. hooks_done. reflexivity. Qed.

Lemma handleRuntimeHostEvent_run ev n :
  run (handleRuntimeHostEvent ev) n =
  (n, map (fun h => HookRuntimeHostEvent h ev) n.(hooks)).
Proof. unfold_handlers. cbn. hooks_done. reflexivity. Qed.

(** The loop has no effect other than those of its handlers and the close
    of initCh. *)
Lemma worker_loop_only_loop_effects (p : Effect -> bool) sched :
  (forall e, is_loop_effect e = true -> p e = false) ->
  forall initialized, wbounded p 0 (worker_loop sched initialized).
Proof.
  intros Hp.
  assert (Hl : forall msg, p (Log msg) = false) by (intros; apply Hp; reflexivity).
  induction sched as [|s sched IH]; intros initialized.
  - apply wbounded_wblocked.
  - destruct s as [|[h|]|blk height env ready|ev|ev]; cbn [worker_loop].
    + apply wbounded_wemit; [apply Hl|apply wbounded_wreturn].
    + apply wbounded_wdo; [intros ?; reflexivity|apply IH].
    + apply wbounded_wreturn.
    + assert (Hrec : wbounded p 0
                       (wdo (handleNewBlockLocked env blk height)
                            (worker_loop sched true))).
      { apply wbounded_wdo; [|apply (IH true)].
        intros n. pose proof (handleNewBlockLocked_rest env blk height n) as F.
        destruct (run (handleNewBlockLocked env blk height) n) as [n1 t1].
        apply (count_of_forallb p is_handler_effect); [|apply F].
        intros e He. apply Hp. unfold is_loop_effect. rewrite He. reflexivity. }
      destruct initialized; [exact Hrec|].
      apply wbounded_wemit; [apply Hl|].
      apply wbounded_wemit; [apply Hp; reflexivity|].
      apply wbounded_wemit; [apply Hl|].
      intros n. apply wbounded_wait_hooks; [exact Hl|].
      apply wbounded_wemit; [apply Hl|exact Hrec].
    + apply wbounded_wdo; [|apply IH].
      intros n. rewrite handleNewEventLocked_run. cbn [snd].
      rewrite count_cons, count_map_none; [rewrite Hp; reflexivity|].
      intros h. apply Hp. reflexivity.
    + apply wbounded_wdo; [|apply IH].
      intros n. rewrite handleRuntimeHostEvent_run. cbn [snd].
      apply count_map_none. intros h. apply Hp. reflexivity.
Qed.

(** A startup that fails at some step: the worker returns without
    entering its loop, whatever is waiting in the event sources. *)
Lemma failed_startup_run su sched n :
  startup_succeeds su = false ->
  let r := worker su sched n in
  r = worker su [] n /\
  woutcome r = Returned /\
  count is_loop_effect (filter (fun e => negb (is_Log e)) (wtrace r)) = 0%nat /\
  (count is_HrtStop (wtrace r) <= count is_HrtStart (wtrace r))%nat /\
  (count is_HrtNotifierStop (wtrace r) <= count is_HrtNotifierStart (wtrace r))%nat /\
  (su.(su_hrt_Start) <> None -> count is_HrtStop (wtrace r) = 0%nat) /\
  (su.(su_hrtNotifier_Start) <> None ->
   count is_HrtNotifierStop (wtrace r) = 0%nat).
Proof.
  destruct su as [sy ad kn kw w1 w2 w3 pv hw hs ns].
  unfold startup_succeeds, keymanager_ready, worker, worker_body,
    worker_with_descriptor, wait_keymanager, try_, count.
  cbn. intros Hf.
  destruct sy; [cbn; repeat split; intros; lia|].
  destruct ad as [[id km]|e]; [|cbn; repeat split; intros; lia].
  cbn in *.
  destruct km as [k|]; cbn in *.
  - destruct kn; [cbn; repeat split; intros; lia|].
    destruct kw; [cbn; repeat split; intros; lia|]. cbn in *.
    destruct w1; [cbn; repeat split; intros; lia|].
    destruct w2; [cbn; repeat split; intros; lia|].
    destruct w3; [cbn; repeat split; intros; lia|].
    destruct pv; [cbn; repeat split; intros; lia|].
    destruct hw; [cbn; repeat split; intros; lia|].
    destruct hs; [cbn; repeat split; intros; try lia; congruence|].
    destruct ns; [cbn; repeat split; intros; try lia; congruence|].
    discriminate Hf.
  - destruct w1; [cbn; repeat split; intros; lia|].
    destruct w2; [cbn; repeat split; intros; lia|].
    destruct w3; [cbn; repeat split; intros; lia|].
    destruct pv; [cbn; repeat split; intros; lia|].
    destruct hw; [cbn; repeat split; intros; lia|].
    destruct hs; [cbn; repeat split; intros; try lia; congruence|].
    destruct ns; [cbn; repeat split; intros; try lia; congruence|].
    discriminate Hf.
Qed.

(** A startup that succeeds: the worker is its loop, after the startup
    effects and, if the loop returns, before the teardown. *)
Lemma successful_startup_run su sched n :
  startup_succeeds su = true ->
  exists rt,
    su.(su_ActiveDescriptor) = inl rt /\
    worker su sched n =
      match worker_loop sched false (node_at_loop rt n) with
      | (Returned, n', t) => (Returned, n', startup_effects rt ++ t ++ teardown)
      | (Blocked, n', t) => (Blocked, n', startup_effects rt ++ t)
      end.
Proof.
  destruct su as [sy ad kn kw w1 w2 w3 pv hw hs ns].
  unfold startup_succeeds, keymanager_ready. cbn.
  destruct sy; [discriminate|].
  destruct ad as [rt|e]; [|discriminate].
  intros Hs. exists rt. split; [reflexivity|].
  repeat (apply andb_prop in Hs as [Hs ?]).
  destruct w1, w2, w3, pv, hw, hs, ns; try discriminate.
  unfold worker, worker_body, worker_with_descriptor, wait_keymanager, try_,
    startup_effects, node_at_loop, teardown.
  cbn [su_Synced su_ActiveDescriptor su_keymanagerClient_New
       su_KeyManagerClient_Initialized su_Consensus_WatchBlocks
       su_RootHash_WatchBlocks su_RootHash_WatchEvents
       su_ProvisionHostedRuntime su_hrt_WatchEvents su_hrt_Start
       su_hrtNotifier_Start].
  destruct (RT_KeyManager rt) as [k|].
  - cbn in Hs. destruct kn; [discriminate|]. destruct kw; [discriminate|].
    unfold wemit, defer, wdo, run, modify.
    destruct (worker_loop sched false
                (set_KeyManagerClient true (set_CurrentDescriptor (Some rt) n)))
      as [[[|] n'] t]; cbn; rewrite <- ?app_assoc; reflexivity.
  - unfold wemit, defer, wdo, run, modify.
    destruct (worker_loop sched false (set_CurrentDescriptor (Some rt) n))
      as [[[|] n'] t]; cbn; rewrite <- ?app_assoc; reflexivity.
Qed.

Lemma loop_effect_not_teardown e : is_loop_effect e = true -> is_teardown e = false.
Proof. destruct e; cbn; intros H; try reflexivity; discriminate H. Qed.

Lemma startup_effects_no_teardown rt : count is_teardown (startup_effects rt) = 0%nat.
Proof. unfold startup_effects. destruct (RT_KeyManager rt); reflexivity. Qed.

(** X5: when any step of the startup fails, the worker returns without
    entering its loop: the run is the same whatever events are waiting, it
    does not block, and it has no effect of the loop (no handler runs,
    initCh stays open). *)
Theorem failed_startup_never_enters_loop su sched n :
  startup_succeeds su = false ->
  worker su sched n = worker su [] n /\
  woutcome (worker su sched n) = Returned /\
  count is_CloseInitCh (wtrace (worker su sched n)) = 0%nat /\
  count is_block_handled (wtrace (worker su sched n)) = 0%nat /\
  count is_hook_call (wtrace (worker su sched n)) = 0%nat.
Proof.
  intros Hf. destruct (failed_startup_run su sched n Hf) as (E & O & L & _).
  split; [exact E|]. split; [exact O|].
  assert (H : forall p, (forall e, p e = true -> is_loop_effect e = true) ->
                        (forall msg, p (Log msg) = false) ->
                        count p (wtrace (worker su sched n)) = 0%nat).
  { intros p Hp Hl. revert L. generalize (wtrace (worker su sched n)).
    induction t as [|e t IH]; [reflexivity|].
    cbn [filter]. rewrite count_cons.
    destruct (is_Log e) eqn:El; cbn [negb].
    - intros L. destruct e; try discriminate El. rewrite Hl. apply IH, L.
    - rewrite count_cons. destruct (is_loop_effect e) eqn:Ee; [discriminate|].
      intros L. destruct (p e) eqn:Ep; [rewrite (Hp e Ep) in Ee; discriminate|].
      apply IH, L. }
  repeat split; apply H; try reflexivity;
    intros e He; destruct e; try discriminate He; try reflexivity;
    destruct c; try discriminate He; reflexivity.
Qed.

(** X6: a worker whose startup succeeded releases what it acquired in the
    reverse order of acquisition when it returns: notifier, hosted runtime,
    the four subscriptions last acquired first, the context, and finally
    quitCh; none of this happens before, and none of it while the worker is
    still in its loop. *)
Theorem teardown_in_reverse_order su sched n :
  startup_succeeds su = true ->
  match worker su sched n with
  | (Returned, _, t) =>
      exists t', t = t' ++ teardown /\ count is_teardown t' = 0%nat
  | (Blocked, _, t) => count is_teardown t = 0%nat
  end.
Proof.
  intros Hs. destruct (successful_startup_run su sched n Hs) as (rt & _ & E).
  rewrite E.
  pose proof (worker_loop_only_loop_effects is_teardown sched
                loop_effect_not_teardown false (node_at_loop rt n)) as Hl.
  unfold wtrace in Hl.
  destruct (worker_loop sched false (node_at_loop rt n)) as [[[|] n'] t];
    cbn [snd] in Hl.
  - exists (startup_effects rt ++ t). rewrite <- app_assoc.
    split; [reflexivity|].
    rewrite count_app, startup_effects_no_teardown. lia.
  - rewrite count_app, startup_effects_no_teardown. lia.
Qed.

Lemma loop_effect_not_hosted e :
  is_loop_effect e = true ->
  is_HrtStart e = false /\ is_HrtStop e = false /\
  is_HrtNotifierStart e = false /\ is_HrtNotifierStop e = false.
Proof. destruct e; cbn; intros H; repeat split; discriminate H. Qed.

(** X7: the worker never stops a hosted runtime or a notifier it did not
    start: each is stopped at most as often as it was started, and not at
    all when its start failed. *)
Theorem hosted_runtime_stopped_only_if_started su sched n :
  let t := wtrace (worker su sched n) in
  (count is_HrtStop t <= count is_HrtStart t)%nat /\
  (count is_HrtNotifierStop t <= count is_HrtNotifierStart t)%nat /\
  (su.(su_hrt_Start) <> None -> count is_HrtStop t = 0%nat) /\
  (su.(su_hrtNotifier_Start) <> None -> count is_HrtNotifierStop t = 0%nat).
Proof.
  cbv zeta. destruct (startup_succeeds su) eqn:Hs.
  - destruct (successful_startup_run su sched n Hs) as (rt & _ & E).
    rewrite E.
    assert (Hh : is_none (su_hrt_Start su) = true /\
                 is_none (su_hrtNotifier_Start su) = true).
    { unfold startup_succeeds in Hs.
      destruct (su_Synced su); [discriminate|].
      destruct (su_ActiveDescriptor su); [|discriminate].
      repeat (apply andb_prop in Hs as [Hs ?]). split; assumption. }
    destruct Hh as [H1 H2].
    assert (Hl : forall p, (forall e, is_loop_effect e = true -> p e = false) ->
                           count p (wtrace (worker_loop sched false
                                              (node_at_loop rt n))) = 0%nat).
    { intros p Hp.
      pose proof (worker_loop_only_loop_effects p sched Hp false
                    (node_at_loop rt n)). lia. }
    pose proof (Hl is_HrtStart (fun e H => proj1 (loop_effect_not_hosted e H))) as L1.
    pose proof (Hl is_HrtStop
                  (fun e H => proj1 (proj2 (loop_effect_not_hosted e H)))) as L2.
    pose proof (Hl is_HrtNotifierStart
                  (fun e H => proj1 (proj2 (proj2 (loop_effect_not_hosted e H)))))
      as L3.
    pose proof (Hl is_HrtNotifierStop
                  (fun e H => proj2 (proj2 (proj2 (loop_effect_not_hosted e H)))))
      as L4.
    unfold wtrace in *.
    destruct (worker_loop sched false (node_at_loop rt n)) as [[[|] n'] t];
      cbn [snd] in *;
      unfold startup_effects, teardown;
      destruct (RT_KeyManager rt);
      rewrite !count_app, ?L1, ?L2, ?L3, ?L4;
      destruct (su_hrt_Start su), (su_hrtNotifier_Start su); try discriminate;
      unfold count; cbn; repeat split; intros; try lia; congruence.
  - destruct (failed_startup_run su sched n Hs) as (_ & _ & _ & A & B & C & D).
    repeat split; assumption.
Qed.

Lemma wait_hooks_ext hs ready (k k' : W) n :
  (forall m, k m = k' m) ->
  wait_hooks hs ready k n = wait_hooks hs ready k' n.
Proof.
  intros Hk. induction hs as [|h hs IH]; cbn; [apply Hk|].
  destruct (ready h); [exact IH|reflexivity|reflexivity].
Qed.

Lemma wdo_ext m (k k' : W) n :
  (forall m', k m' = k' m') -> wdo m k n = wdo m k' n.
Proof. intros Hk. unfold wdo. destruct (run m n) as [n1 t1]. rewrite Hk. reflexivity. Qed.

Lemma wemit_ext e (k k' : W) n :
  (forall m', k m' = k' m') -> wemit e k n = wemit e k' n.
Proof. intros Hk. unfold wemit. rewrite Hk. reflexivity. Qed.

(** The loop reads its event sources only up to the selection that ends
    it. *)
Lemma worker_loop_cut (s : Select) pre rest :
  s = SelStop \/ s = SelConsensusBlock None ->
  forall initialized n,
    worker_loop (pre ++ s :: rest) initialized n =
    worker_loop (pre ++ [s]) initialized n.
Proof.
  intros Hs. induction pre as [|a pre IH]; intros initialized n.
  - destruct Hs as [-> | ->]; reflexivity.
  - destruct a as [|[h|]|blk height env ready|ev|ev]; cbn [app worker_loop];
      try reflexivity.
    + apply wdo_ext. intros m. apply IH.
    + destruct initialized.
      * apply wdo_ext. intros m. apply IH.
      * do 3 (apply wemit_ext; intros ?).
        apply wait_hooks_ext. intros ?. apply wemit_ext. intros ?.
        apply wdo_ext. intros ?. apply IH.
    + apply wdo_ext. intros m. apply IH.
    + apply wdo_ext. intros m. apply IH.
Qed.

(** X8: the loop ends at the stop signal or at a nil consensus block:
    whatever the event sources hold after it is never looked at; and when
    only consensus blocks and events came before, the worker loop returns
    there. *)
Theorem loop_ends_at_stop pre rest initialized n :
  worker_loop (pre ++ SelStop :: rest) initialized n =
    worker_loop (pre ++ [SelStop]) initialized n /\
  worker_loop (pre ++ SelConsensusBlock None :: rest) initialized n =
    worker_loop (pre ++ [SelConsensusBlock None]) initialized n /\
  (forallb quiet pre = true ->
   woutcome (worker_loop (pre ++ SelStop :: rest) initialized n) = Returned /\
   woutcome (worker_loop (pre ++ SelConsensusBlock None :: rest) initialized n)
     = Returned).
Proof.
  split; [apply worker_loop_cut; left; reflexivity|].
  split; [apply worker_loop_cut; right; reflexivity|].
  intros Hq.
  destruct (worker_loop_quiet_prefix pre (SelStop :: rest) Hq initialized n)
    as (n1 & t1 & _ & _ & _ & E1).
  destruct (worker_loop_quiet_prefix pre (SelConsensusBlock None :: rest) Hq
              initialized n) as (n2 & t2 & _ & _ & _ & E2).
  rewrite E1, E2. split; reflexivity.
Qed.

Lemma loop_ends_at_stop_witness :
  woutcome (worker_loop ([SelEvent 1%N; SelConsensusBlock (Some 5)] ++
                         SelStop :: [SelEvent 2%N])
                        false node_started) = Returned.
Proof.
  exact (proj1 (proj2 (proj2 (loop_ends_at_stop
                                [SelEvent 1%N; SelConsensusBlock (Some 5)]
                                [SelEvent 2%N] false node_started))
                      eq_refl)).
Defined.

(** ** Node invariants along a run *)

Lemma worker_loop_keeps (I : Node -> Prop) sched :
  (forall h m, In (SelConsensusBlock (Some h)) sched -> I m -> I (set_Height h m)) ->
  (forall env blk height m,
     I m -> I (fst (run (handleNewBlockLocked env blk height) m))) ->
  forall initialized, wkeeps I (worker_loop sched initialized).
Proof.
  intros Hh Hb. induction sched as [|s sched IH]; intros initialized.
  - apply wkeeps_wblocked.
  - assert (IH' : forall i, wkeeps I (worker_loop sched i)).
    { apply IH. intros h m Hin. apply Hh. right. exact Hin. }
    destruct s as [|[h|]|blk height env ready|ev|ev]; cbn [worker_loop].
    + apply wkeeps_wemit, wkeeps_wreturn.
    + apply wkeeps_wdo; [|apply IH'].
      intros m Hm. apply Hh; [left; reflexivity|exact Hm].
    + apply wkeeps_wreturn.
    + assert (Hrec : wkeeps I (wdo (handleNewBlockLocked env blk height)
                                   (worker_loop sched true))).
      { apply wkeeps_wdo; [apply Hb|apply IH']. }
      destruct initialized; [exact Hrec|].
      do 3 apply wkeeps_wemit.
      intros m Hm. apply wkeeps_wait_hooks; [|exact Hm].
      apply wkeeps_wemit. exact Hrec.
    + apply wkeeps_wdo; [|apply IH'].
      intros m Hm. rewrite handleNewEventLocked_run. exact Hm.
    + apply wkeeps_wdo; [|apply IH'].
      intros m Hm. rewrite handleRuntimeHostEvent_run. exact Hm.
Qed.

Lemma worker_keeps (I : Node -> Prop) su sched :
  (forall d m, I m -> I (set_CurrentDescriptor d m)) ->
  (forall b m, I m -> I (set_KeyManagerClient b m)) ->
  wkeeps I (worker_loop sched false) ->
  wkeeps I (worker su sched).
Proof.
  intros Hd Hk Hloop. unfold worker, worker_body.
  apply wkeeps_wemit. do 2 apply wkeeps_defer. apply wkeeps_wemit.
  destruct (su_Synced su); [apply wkeeps_wreturn|].
  apply wkeeps_wemit.
  destruct (su_ActiveDescriptor su) as [rt|e].
  - apply wkeeps_wemit. apply wkeeps_wdo; [intros m Hm; apply Hd, Hm|].
    apply worker_with_descriptor_keeps; assumption.
  - apply wkeeps_wemit, wkeeps_wreturn.
Qed.

(** X9: a run of the worker leaves the hook list and the stop-once flag as
    they are, and moves [Height] only on consensus blocks: with none in the
    schedule, [Height] is unchanged. *)
Theorem worker_frame su sched n :
  let n' := wnode (worker su sched n) in
  n'.(hooks) = n.(hooks) /\
  n'.(stopOnce) = n.(stopOnce) /\
  (forallb (fun s => negb (is_consensus_block s)) sched = true ->
   n'.(Height) = n.(Height)).
Proof.
  cbv zeta.
  assert (A : wkeeps (fun m => m.(hooks) = n.(hooks) /\ m.(stopOnce) = n.(stopOnce))
                     (worker su sched)).
  { apply worker_keeps; try (intros ? m Hm; exact Hm).
    apply worker_loop_keeps; [intros h m _ Hm; exact Hm|].
    intros env blk height m [Hm1 Hm2].
    pose proof (handleNewBlockLocked_frame env blk height m) as F1.
    pose proof (handleNewBlockLocked_rest env blk height m) as F2.
    destruct (run (handleNewBlockLocked env blk height) m) as [m1 t1].
    destruct F1 as (F1 & _). destruct F2 as (_ & _ & F2 & _).
    cbn. split; congruence. }
  destruct (A n (conj eq_refl eq_refl)) as [A1 A2].
  split; [exact A1|]. split; [exact A2|].
  intros Hc.
  assert (B : wkeeps (fun m => m.(Height) = n.(Height)) (worker su sched)).
  { apply worker_keeps; try (intros ? m Hm; exact Hm).
    apply worker_loop_keeps.
    - intros h m Hin _. exfalso.
      rewrite forallb_forall in Hc. specialize (Hc _ Hin). discriminate Hc.
    - intros env blk height m Hm.
      pose proof (handleNewBlockLocked_rest env blk height m) as F2.
      destruct (run (handleNewBlockLocked env blk height) m) as [m1 t1].
      destruct F2 as (_ & F2 & _). cbn. congruence. }
  exact (B n eq_refl).
Qed.

Lemma worker_frame_witness :
  (wnode (worker su_ok [SelBlock (block_of 1 block.Normal) 10 env_ok
                                 (fun _ => HookInitialized); SelStop]
                 node_started)).(Height) = 0.
Proof.
  exact (proj2 (proj2 (worker_frame su_ok
                         [SelBlock (block_of 1 block.Normal) 10 env_ok
                                   (fun _ => HookInitialized); SelStop]
                         node_started)) eq_refl).
Defined.

(** X10: the current block and its light block go together.  On a new node
    there is neither; hook registration does not touch them; and every run
    of the worker from a node where they go together ends in one where they
    do: a reader who finds a current block finds its light block. *)
Theorem current_block_has_light_block :
  block_consistent NewNode /\
  (forall h n, block_consistent n -> block_consistent (AddHooks h n)) /\
  (forall env blk height n,
     block_consistent n ->
     block_consistent (fst (run (handleNewBlockLocked env blk height) n))) /\
  (forall su sched n,
     block_consistent n -> block_consistent (wnode (worker su sched n))).
Proof.
  assert (Hb : forall env blk height n,
             block_consistent n ->
             block_consistent (fst (run (handleNewBlockLocked env blk height) n))).
  { intros env blk height n Hn.
    pose proof (handleNewBlockLocked_rest env blk height n) as F.
    destruct (run (handleNewBlockLocked env blk height) n) as [n1 t1].
    apply F, Hn. }
  split; [split; reflexivity|]. split; [intros h n Hn; exact Hn|].
  split; [exact Hb|].
  intros su sched. apply worker_keeps; try (intros ? m Hm; exact Hm).
  apply worker_loop_keeps; [intros h m _ Hm; exact Hm|exact Hb].
Qed.

Lemma current_block_has_light_block_witness :
  block_consistent
    (wnode (worker su_ok [SelBlock (block_of 1 block.Normal) 10 env_ok
                                   (fun _ => HookInitialized)]
                   (AddHooks 7%nat NewNode))).
Proof.
  apply (proj2 (proj2 (proj2 current_block_has_light_block))).
  apply (proj1 (proj2 current_block_has_light_block)).
  exact (proj1 current_block_has_light_block).
Defined.

(** ** GetStatus *)

(** X11: the status follows the handler's commit: once the light block of
    a block has been fetched, the status shows that block's round and
    height and asks the scheduler question for that round, whatever becomes
    of the block afterwards (failed refresh, unrecognised type); a block
    dropped for want of a light block leaves the status as it was; and
    before any block both round and height are zero, whatever the height
    field holds. *)
Theorem status_follows_commit senv env blk height n :
  let n' := fst (run (handleNewBlockLocked env blk height) n) in
  (forall lb, env.(GetLightBlock) height = inl lb ->
     let st := fst (GetStatus senv n') in
     st.(LatestRound) = blk.(block.Header_).(block.Round) /\
     st.(LatestHeight) = height /\
     st.(IsTransactionScheduler) =
       senv.(epoch_IsTransactionScheduler) blk.(block.Header_).(block.Round)) /\
  (forall err, env.(GetLightBlock) height = inr err ->
     GetStatus senv n' = GetStatus senv n) /\
  (n.(CurrentBlock) = None ->
     let st := fst (GetStatus senv n) in
     st.(LatestRound) = 0%N /\ st.(LatestHeight) = 0 /\
     st.(IsTransactionScheduler) = senv.(epoch_IsTransactionScheduler) 0%N).
Proof.
  cbv zeta.
  pose proof (handleNewBlockLocked_rest env blk height n) as F.
  destruct (run (handleNewBlockLocked env blk height) n) as [n' t].
  destruct F as (_ & _ & _ & _ & _ & Fok & Ferr). cbn [fst].
  split; [|split].
  - intros lb HLB. destruct (Fok lb HLB) as (Hb & Hh & _).
    unfold GetStatus. rewrite Hb, Hh. repeat split.
  - intros err HLB. rewrite (Ferr err HLB). reflexivity.
  - intros Hb. unfold GetStatus. rewrite Hb. repeat split.
Qed.

Lemma status_follows_commit_witness :
  let n' := fst (run (handleNewBlockLocked env_ok
                        (block_of 9 (block.Unrecognized 0)) 11) node_running) in
  (fst (GetStatus (mkStatusEnv None (fun _ => false) []) n')).(LatestRound) = 9%N /\
  (fst (GetStatus (mkStatusEnv None (fun _ => false) []) n')).(LatestHeight) = 11.
Proof.
  destruct (proj1 (status_follows_commit (mkStatusEnv None (fun _ => false) [])
                     env_ok (block_of 9 (block.Unrecognized 0)) 11
                     node_running) (mkLightBlock 11 0) eq_refl)
    as (H1 & H2 & _).
  split; [exact H1|exact H2].
Defined.

(** ** More on the scheduler facade *)

(** X12: the facade recognises the duplicate condition by identity only.
    It never hands ErrCallAlreadyExists itself to its caller and logs the
    duplicate exactly when the pool answered with it; but a pool error that
    merely wraps ErrCallAlreadyExists is returned as an error, although
    [errors.Is] would find the duplicate condition in it. *)
Theorem QueueTx_duplicate_by_identity (P : Type) (pool : TxPool P)
  (tx : CheckedTransaction) (s : scheduler P) :
  let '(r, _, logs) := QueueTx tx s in
  r <> Some ErrCallAlreadyExists /\
  (logs <> [] <-> fst (Add tx s.(txPool)) = Some ErrCallAlreadyExists) /\
  (forall msg,
     fst (Add tx s.(txPool)) = Some (ErrWrap msg ErrCallAlreadyExists) ->
     r = Some (ErrWrap msg ErrCallAlreadyExists) /\
     errors_Is (ErrWrap msg ErrCallAlreadyExists) ErrCallAlreadyExists = true).
Proof.
  unfold QueueTx. destruct (Add tx (txPool s)) as [[err|] p]; cbn.
  - destruct (Error_eqb err ErrCallAlreadyExists) eqn:E; cbn.
    + apply Error_eqb_eq in E. subst err.
      repeat split; try discriminate; intros; try reflexivity; discriminate.
    + repeat split; try discriminate; try reflexivity.
      * intros [= ->]. discriminate E.
      * intros H. contradiction.
      * intros [= ->]. discriminate E.
      * injection H as ->. reflexivity.
  - repeat split; try discriminate; try reflexivity.
    intros H. contradiction.
Qed.

Lemma QueueTx_duplicate_by_identity_witness :
  fst (fst (QueueTx tx_A scheduler_with_A)) <> Some ErrCallAlreadyExists.
Proof.
  pose proof (QueueTx_duplicate_by_identity priorityqueue.Pool _ tx_A
                scheduler_with_A) as H.
  destruct (QueueTx tx_A scheduler_with_A) as [[r s'] logs].
  exact (proj1 H).
Defined.

Lemma facade_call_keeps_cap (P : Type) (pool : TxPool P) c (s : scheduler P) :
  (facade_call c s).(maxTxPoolSize) = s.(maxTxPoolSize).
Proof.
  destruct c as [tx|ids| |w]; cbn; try reflexivity.
  pose proof (QueueTx_outcome tx s) as H.
  destruct (QueueTx tx s) as [[r s'] logs]. apply H.
Qed.

(** X13: the size cap given at construction is the one every later
    parameter update passes to the pool: no sequence of QueueTx,
    RemoveTxBatch, Clear and UpdateParameters changes it, so
    UpdateParameters replaces the weight limits only. *)
Theorem UpdateParameters_keeps_size_cap (P : Type) (pool : TxPool P)
  (cs : list FacadeCall) (w : list (Weight * N)) (s : scheduler P) :
  let s' := facade_calls cs s in
  s'.(maxTxPoolSize) = s.(maxTxPoolSize) /\
  (UpdateParameters w s').(txPool) =
    UpdateConfig (mkConfig s.(maxTxPoolSize) w) s'.(txPool).
Proof.
  cbv zeta.
  assert (H : (facade_calls cs s).(maxTxPoolSize) = s.(maxTxPoolSize)).
  { revert s. induction cs as [|c cs IH]; intros s; [reflexivity|].
    cbn. unfold facade_calls in IH. rewrite IH. apply facade_call_keeps_cap. }
  split; [exact H|]. unfold UpdateParameters. cbn. rewrite H. reflexivity.
Qed.

(** ** Instances *)

Lemma Start_spawns_worker_iff_success_witness :
  exists err,
    fst (Start (Some ErrNoSuchRuntime) None) = Some err /\
    errors_Is err ErrNoSuchRuntime = true.
Proof.
  pose proof (Start_spawns_worker_iff_success (Some ErrNoSuchRuntime) None) as H.
  cbn in H. destruct H as (_ & _ & _ & H).
  exact (H ErrNoSuchRuntime ErrNoSuchRuntime (or_introl eq_refl) eq_refl).
Defined.

Lemma handler_counters_witness :
  count is_failedRoundCount
    (snd (run (handleNewBlockLocked env_ok (block_of 2 block.RoundFailed) 11)
              node_running)) = 1%nat.
Proof.
  apply (proj2 (proj2 (proj2 (proj2 (handler_counters env_ok
                 (block_of 2 block.RoundFailed) 11 node_running))))).
  repeat split.
Defined.

Lemma failed_startup_never_enters_loop_witness :
  woutcome (worker su_no_blocks
              [SelBlock (block_of 1 block.Normal) 10 env_ok
                        (fun _ => HookInitialized)]
              node_started) = Returned.
Proof.
  exact (proj1 (proj2 (failed_startup_never_enters_loop su_no_blocks
                         [SelBlock (block_of 1 block.Normal) 10 env_ok
                                   (fun _ => HookInitialized)]
                         node_started eq_refl))).
Defined.

Lemma teardown_in_reverse_order_witness :
  match worker su_ok [SelStop] node_started with
  | (Returned, _, t) =>
      exists t', t = t' ++ teardown /\ count is_teardown t' = 0%nat
  | (Blocked, _, t) => count is_teardown t = 0%nat
  end.
Proof.
  exact (teardown_in_reverse_order su_ok [SelStop] node_started eq_refl).
Defined.

Lemma hosted_runtime_stopped_only_if_started_witness :
  count is_HrtStop (wtrace (worker su_hrt_fails [SelStop] node_started)) = 0%nat.
Proof.
  apply (proj1 (proj2 (proj2 (hosted_runtime_stopped_only_if_started
                               su_hrt_fails [SelStop] node_started)))).
  discriminate.
Defined.

(** ** Shutdown, end to end *)











